(** * 4D-Palate-Atlas: the binary feature loader

    A shallow embedding of [src/binaryDataLoader.js] (class
    [BinaryDataLoader]), of the initialisation wrapper of
    [src/realDataConstants.js] and of the request de-duplication of
    [src/dataManager.js], followed by the properties of the sparse feature
    store that the specification states about them.

    Conventions of the embedding.
    - An [ArrayBuffer] is a [list byte]; multi-byte reads are little-endian
      ([view.getUint32(offset, true)]), written with coqutil's [le_combine].
    - A float32 is represented by the 32-bit word of its IEEE-754 encoding,
      so [0] is [+0.0], the value [fill(0)] stores.  Reading four bytes with
      [getFloat32] and storing them in a [Float32Array] keeps that word,
      except that an engine may turn the encoding of a NaN into that of
      another NaN: the statements that compare the stored entries with the
      bytes of a file do so up to [sameFloat32].
    - A JavaScript exception is a value of [JsError]; a function that can
      throw returns a [Result].
    - [Float32Array] objects live in a heap and are named by references, as
      the cache stores and hands out the objects themselves.
    - The byte source ([fetch]) is a fixed environment: a function from URL
      to the bytes of the file, or [None] when the request fails, the
      response is not [ok] or its body cannot be read.  Every request is
      recorded in a log. *)

From Stdlib Require Import ZArith List Lia.
From Stdlib Require Import Strings.Ascii Strings.String Strings.Byte.
From coqutil Require Import Byte Word.LittleEndianList.
From stdpp Require Import gmap strings list.

Local Open Scope Z_scope.

(** ** Exceptions and results *)

Inductive JsError : Type :=
| RangeError   (* DataView / typed-array access outside the buffer *)
| TypeError    (* property access on [null] or [undefined] *)
| FetchError.  (* [new Error(`Failed to fetch ...`)] or a rejected fetch *)

Inductive Result (A : Type) : Type :=
| Ok (a : A)
| Throw (e : JsError).
Arguments Ok {A} a.
Arguments Throw {A} e.

Definition bindR {A B} (r : Result A) (k : A -> Result B) : Result B :=
  match r with
  | Ok a => k a
  | Throw e => Throw e
  end.

Notation "'let*' x ':=' r 'in' k" := (bindR r (fun x => k))
  (at level 10, x name, r at level 100, k at level 200).

Definition is_ok {A} (r : Result A) : bool :=
  match r with Ok _ => true | Throw _ => false end.

(** ** Buffers and the [DataView] reads *)

Abbreviation ArrayBuffer := (list byte) (only parsing).

(** A float32, as the word of its encoding. *)
Abbreviation float32 := Z (only parsing).

Definition f32_zero : float32 := 0.

Module DataView.

(** [view.getUint32(offset, true)]: throws a [RangeError] unless the four
    bytes from [offset] lie inside the buffer. *)
Definition getUint32 (buffer : ArrayBuffer) (offset : nat) : Result Z :=
  if (offset + 4 <=? length buffer)%nat
  then Ok (le_combine (take 4 (drop offset buffer)))
  else Throw RangeError.

(** [view.getFloat32(offset, true)]: the same four bytes, read as a
    float32. *)
Definition getFloat32 (buffer : ArrayBuffer) (offset : nat) : Result float32 :=
  if (offset + 4 <=? length buffer)%nat
  then Ok (le_combine (take 4 (drop offset buffer)))
  else Throw RangeError.

End DataView.

(** ** String tables and the coordinate table *)

(** [new TextDecoder().decode(strBytes)]: strings are kept as their UTF-8
    bytes. *)
Definition TextDecoder_decode (strBytes : list byte) : string :=
  string_of_list_byte strBytes.

(** [new Uint8Array(buffer, offset, strLength)]: throws a [RangeError]
    unless the window lies inside the buffer. *)
Definition Uint8Array_view (buffer : ArrayBuffer) (offset strLength : nat)
    : Result (list byte) :=
  if (offset + strLength <=? length buffer)%nat
  then Ok (take strLength (drop offset buffer))
  else Throw RangeError.

(** The [for] loop shared by [_loadCellIds] and [_loadStringArray], run [n]
    more times from [offset]; [strings] is the array built so far. *)
Fixpoint readStrings (buffer : ArrayBuffer) (n : nat) (offset : nat)
    (strings : list string) : Result (list string) :=
  match n with
  | O => Ok strings
  | S n' =>
      let* strLength := DataView.getUint32 buffer offset in
      let* strBytes := Uint8Array_view buffer (offset + 4) (Z.to_nat strLength) in
      readStrings buffer n' (offset + 4 + Z.to_nat strLength)
                  (strings ++ [TextDecoder_decode strBytes])
  end.

(** The decoding part of [_loadStringArray] (and of [_loadCellIds], which
    has the same body). *)
Definition parseStringArray (buffer : ArrayBuffer) : Result (list string) :=
  let* count := DataView.getUint32 buffer 0 in
  readStrings buffer (Z.to_nat count) 4 [].

Record Coordinate := mkCoordinate { cx : float32; cy : float32 }.

Fixpoint readCoordinates (buffer : ArrayBuffer) (n : nat) (offset : nat)
    (coordinates : list Coordinate) : Result (list Coordinate) :=
  match n with
  | O => Ok coordinates
  | S n' =>
      let* x := DataView.getFloat32 buffer offset in
      let* y := DataView.getFloat32 buffer (offset + 4) in
      readCoordinates buffer n' (offset + 8) (coordinates ++ [mkCoordinate x y])
  end.

(** The decoding part of [_loadCoordinates]. *)
Definition parseCoordinates (buffer : ArrayBuffer) : Result (list Coordinate) :=
  let* count := DataView.getUint32 buffer 0 in
  readCoordinates buffer (Z.to_nat count) 4 [].

(** ** The base dataset *)

(** A cell; [slice] and [region] are [undefined] ([None]) when the label
    table is shorter than the identifier table. *)
Record Cell := mkCell {
  id : string;
  x : float32;
  y : float32;
  slice : option string;
  region : option string;
}.

Record BaseData := mkBaseData {
  cellIds : list string;
  coordinates : list Coordinate;
  sections : list string;
  celltypes : list string;
  baseDataCells : list Cell;   (* the field [baseData] of the object *)
}.

(** The loop of [_loadBaseData] from index [i], over the identifiers still
    to visit: [coordinates[i].x] throws a [TypeError] when [coordinates[i]]
    is [undefined]. *)
Fixpoint buildCells (ids : list string) (i : nat) (coords : list Coordinate)
    (secs types : list string) (acc : list Cell) : Result (list Cell) :=
  match ids with
  | [] => Ok acc
  | cid :: ids' =>
      match coords !! i with
      | None => Throw TypeError
      | Some c =>
          buildCells ids' (S i) coords secs types
            (acc ++ [mkCell cid (cx c) (cy c) (secs !! i) (types !! i)])
      end
  end.

Definition assembleBaseData (ids : list string) (coords : list Coordinate)
    (secs types : list string) : Result BaseData :=
  let* cells := buildCells ids 0 coords secs types [] in
  Ok (mkBaseData ids coords secs types cells).

(** ** The metadata descriptor *)

(** One category of [metadata.json]; [features] may be missing, in which
    case [getAllFeatures] substitutes the empty array. *)
Record FeatureCatalog := mkCatalog {
  total : Z;
  features : option (list string);
}.

(** The object [response.json()] yields; either category may be missing. *)
Record Metadata := mkMetadata {
  genes : option FeatureCatalog;
  tfs : option FeatureCatalog;
}.

(** ** The loader object, the heap and the byte source *)

(** A reference to a [Float32Array] object: its position in the heap. *)
Abbreviation ref := nat (only parsing).

(** The fields of a [BinaryDataLoader]; [None] is [null]. *)
Record BinaryDataLoader := mkLoader {
  basePath : string;
  metadata : option Metadata;
  baseData : option BaseData;
  loadedFeatures : gmap string ref;
}.

(** [new BinaryDataLoader()], with the default base path. *)
Definition constructor : BinaryDataLoader :=
  mkLoader "./data/binary" None None ∅.

(** What [fetch] answers: the bytes behind a URL for [arrayBuffer()], the
    parsed document for [json()]; [None] for a failed request. *)
Record Env := mkEnv {
  binaryFiles : string -> option ArrayBuffer;
  jsonFiles : string -> option Metadata;
}.

(** The singleton loader, the [Float32Array] objects allocated so far and
    the URLs requested so far (oldest first). *)
Record World := mkWorld {
  this : BinaryDataLoader;
  heap : list (list float32);
  requests : list string;
}.

Definition newWorld : World := mkWorld constructor [] [].

(** Computations of the loader: they read and change the world and either
    return or throw; the world changes made before a throw are kept. *)
Definition M (A : Type) : Type := World -> Result A * World.

Definition ret {A} (a : A) : M A := fun w => (Ok a, w).

Definition throw {A} (e : JsError) : M A := fun w => (Throw e, w).

Definition bindM {A B} (m : M A) (k : A -> M B) : M B := fun w =>
  match m w with
  | (Ok a, w') => k a w'
  | (Throw e, w') => (Throw e, w')
  end.

Definition lift {A} (r : Result A) : M A := fun w => (r, w).

(** [try { body } catch (error) { handler }] *)
Definition tryCatch {A} (body : M A) (handler : JsError -> M A) : M A := fun w =>
  match body w with
  | (Ok a, w') => (Ok a, w')
  | (Throw e, w') => handler e w'
  end.

Notation "'do!' x ':=' m 'in' k" := (bindM m (fun x => k))
  (at level 10, x name, m at level 100, k at level 200).
Notation "m ';;' k" := (bindM m (fun _ => k))
  (at level 100, k at level 200, right associativity).

Definition getThis : M BinaryDataLoader := fun w => (Ok (this w), w).

Definition setMetadata (md : Metadata) : M unit := fun w =>
  let t := this w in
  (Ok tt, mkWorld (mkLoader (basePath t) (Some md) (baseData t) (loadedFeatures t))
                  (heap w) (requests w)).

Definition setBaseData (bd : BaseData) : M unit := fun w =>
  let t := this w in
  (Ok tt, mkWorld (mkLoader (basePath t) (metadata t) (Some bd) (loadedFeatures t))
                  (heap w) (requests w)).

Definition setLoadedFeatures (cache : gmap string ref) : M unit := fun w =>
  let t := this w in
  (Ok tt, mkWorld (mkLoader (basePath t) (metadata t) (baseData t) cache)
                  (heap w) (requests w)).

(** [new Float32Array(...)] with the given contents: a fresh object. *)
Definition allocFloat32Array (contents : list float32) : M ref := fun w =>
  (Ok (length (heap w)), mkWorld (this w) (heap w ++ [contents]) (requests w)).

(** The request made by [fetch(url)] is recorded when it is issued. *)
Definition issueFetch (url : string) : M unit := fun w =>
  (Ok tt, mkWorld (this w) (heap w) (requests w ++ [url])).

(** [this.baseData.cellIds.length]: a [TypeError] while [baseData] is
    [null]. *)
Definition cellCount (t : BinaryDataLoader) : Result nat :=
  match baseData t with
  | Some bd => Ok (length (cellIds bd))
  | None => Throw TypeError
  end.

(** ** The sparse feature decoder *)

(** [if (cellIndex < featureArray.length) featureArray[cellIndex] = value]
    for the pair [p = (cellIndex, value)]. *)
Definition storePair (featureArray : list float32) (p : Z * float32)
    : list float32 :=
  if fst p <? Z.of_nat (length featureArray)
  then <[Z.to_nat (fst p) := snd p]> featureArray
  else featureArray.

(** The [for] loop of [_parseFeatureBinary], run [n] more times from
    [offset]: read a pair, store the value when the index is inside the
    array, skip the pair otherwise. *)
Fixpoint fillNonZero (buffer : ArrayBuffer) (n : nat) (offset : nat)
    (featureArray : list float32) : Result (list float32) :=
  match n with
  | O => Ok featureArray
  | S n' =>
      let* cellIndex := DataView.getUint32 buffer offset in
      let* value := DataView.getFloat32 buffer (offset + 4) in
      fillNonZero buffer n' (offset + 8) (storePair featureArray (cellIndex, value))
  end.

(** [_parseFeatureBinary(buffer)], up to the allocation of the result: the
    contents of the array it returns. *)
Definition _parseFeatureBinary (t : BinaryDataLoader) (buffer : ArrayBuffer)
    : Result (list float32) :=
  let* nonZeroCount := DataView.getUint32 buffer 0 in
  let* n := cellCount t in
  fillNonZero buffer (Z.to_nat nonZeroCount) 4 (replicate n f32_zero).

Section Loader.

Variable env : Env.

(** [_fetchBinary(url)] *)
Definition _fetchBinary (url : string) : M ArrayBuffer :=
  issueFetch url ;;
  match binaryFiles env url with
  | Some buffer => ret buffer
  | None => throw FetchError
  end.

(** [_loadJSON(url)] *)
Definition _loadJSON (url : string) : M Metadata :=
  issueFetch url ;;
  match jsonFiles env url with
  | Some doc => ret doc
  | None => throw FetchError
  end.

Definition _loadStringArray (filePath : string) : M (list string) :=
  do! buffer := _fetchBinary filePath in
  lift (parseStringArray buffer).

Definition _loadCellIds : M (list string) :=
  do! t := getThis in
  do! buffer := _fetchBinary (basePath t +:+ "/base/cell_ids.bin") in
  lift (parseStringArray buffer).

Definition _loadCoordinates : M (list Coordinate) :=
  do! t := getThis in
  do! buffer := _fetchBinary (basePath t +:+ "/base/coordinates.bin") in
  lift (parseCoordinates buffer).

Definition _loadSections : M (list string) :=
  do! t := getThis in
  _loadStringArray (basePath t +:+ "/base/sections.bin").

Definition _loadCellTypes : M (list string) :=
  do! t := getThis in
  _loadStringArray (basePath t +:+ "/base/celltypes.bin").

(** [Promise.all] of four calls: every call is made, so every request is
    issued, whatever the others answer; the result is the four values, or
    the failure of the first call (in array order) that failed. *)
Definition promiseAll4 {A B C D} (ma : M A) (mb : M B) (mc : M C) (md : M D)
    : M (A * B * C * D) := fun w =>
  let '(ra, w1) := ma w in
  let '(rb, w2) := mb w1 in
  let '(rc, w3) := mc w2 in
  let '(rd, w4) := md w3 in
  (let* a := ra in let* b := rb in let* c := rc in let* d := rd in
   Ok (a, b, c, d), w4).

Definition _loadBaseData : M BaseData :=
  do! tables := promiseAll4 _loadCellIds _loadCoordinates
                            _loadSections _loadCellTypes in
  let '(ids, coords, secs, types) := tables in
  lift (assembleBaseData ids coords secs types).

(** [init()]: the [catch] block logs and rethrows, so it is the body.  The
    [console.log] call evaluates [this.metadata.genes.total] and
    [this.metadata.tfs.total], which throws when a category is missing
    from the metadata. *)
Definition init : M bool :=
  do! t := getThis in
  do! md := _loadJSON (basePath t +:+ "/metadata.json") in
  setMetadata md ;;
  do! bd := _loadBaseData in
  setBaseData bd ;;
  do! _ := lift (match genes md, tfs md with
                 | Some _, Some _ => Ok tt
                 | _, _ => Throw TypeError
                 end) in
  ret true.

(** The URL [loadFeature] requests. *)
Definition featurePath (t : BinaryDataLoader) (featureName category : string)
    : string :=
  basePath t +:+ "/" +:+ category +:+ "/" +:+ featureName +:+ ".bin".

(** The [catch] block of [loadFeature]:
    [new Float32Array(this.baseData.cellIds.length).fill(0)]. *)
Definition zeroFallback : M ref :=
  do! t := getThis in
  do! n := lift (cellCount t) in
  allocFloat32Array (replicate n f32_zero).

(** What [loadFeature] does with the buffer once it has it: decode, cache
    the decoded array under the feature name, return it. *)
Definition decodeAndCache (featureName : string) (buffer : ArrayBuffer) : M ref :=
  do! t := getThis in
  do! contents := lift (_parseFeatureBinary t buffer) in
  do! featureData := allocFloat32Array contents in
  do! t' := getThis in
  setLoadedFeatures (<[featureName := featureData]> (loadedFeatures t')) ;;
  ret featureData.

(** [loadFeature(featureName, category)], run without interruption: the
    result is the [Float32Array] object returned (by reference). *)
Definition loadFeature (featureName category : string) : M ref :=
  do! t := getThis in
  match loadedFeatures t !! featureName with
  | Some cached => ret cached
  | None =>
      let filePath := featurePath t featureName category in
      tryCatch
        (do! buffer := _fetchBinary filePath in
         decodeAndCache featureName buffer)
        (fun _ => zeroFallback)
  end.

(** [getAllFeatures()] *)
Definition getAllFeatures (t : BinaryDataLoader)
    : Result (list string * list string) :=
  match metadata t with
  | None => Throw TypeError
  | Some md =>
      match genes md, tfs md with
      | Some g, Some f => Ok (default [] (features g), default [] (features f))
      | _, _ => Throw TypeError
      end
  end.

(** [getBaseData()]: [this.baseData.baseData]. *)
Definition getBaseData (t : BinaryDataLoader) : Result (list Cell) :=
  match baseData t with
  | Some bd => Ok (baseDataCells bd)
  | None => Throw TypeError
  end.

(** [clearCache()] *)
Definition clearCache : M unit := setLoadedFeatures ∅.

Record Stats := mkStats {
  totalCells : nat;
  loadedFeaturesCount : nat;
  genesTotal : Z;
  tfsTotal : Z;
}.

(** [getStats()] *)
Definition getStats (t : BinaryDataLoader) : Result Stats :=
  let* n := cellCount t in
  match metadata t with
  | None => Throw TypeError
  | Some md =>
      match genes md, tfs md with
      | Some g, Some f => Ok (mkStats n (size (loadedFeatures t)) (total g) (total f))
      | _, _ => Throw TypeError
      end
  end.

(** *** The two halves of a [loadFeature] call

    An [async] function runs from its call up to its first [await] and
    continues when the awaited operation answers.  For [loadFeature] the
    first half is the cache test and, on a miss, the call of [fetch] inside
    [_fetchBinary], which issues the request; the second half starts with
    the answer to that request. *)

Inductive Started : Type :=
| Resolved (cached : ref)      (* returned from the cache *)
| Awaiting (filePath : string). (* suspended on the request for [filePath] *)

Definition loadFeature_call (featureName category : string) : M Started :=
  do! t := getThis in
  match loadedFeatures t !! featureName with
  | Some cached => ret (Resolved cached)
  | None =>
      let filePath := featurePath t featureName category in
      issueFetch filePath ;; ret (Awaiting filePath)
  end.

Definition loadFeature_resume (featureName : string)
    (response : option ArrayBuffer) : M ref :=
  tryCatch
    (do! buffer := match response with
                   | Some buffer => ret buffer
                   | None => throw FetchError
                   end in
     decodeAndCache featureName buffer)
    (fun _ => zeroFallback).

(** [featureNames.map(name => this.loadFeature(name, category))]: the calls
    are made one after the other, before any request is answered. *)
Fixpoint callEach (featureNames : list string) (category : string)
    : M (list Started) :=
  match featureNames with
  | [] => ret []
  | name :: names =>
      do! s := loadFeature_call name category in
      do! rest := callEach names category in
      ret (s :: rest)
  end.

(** [n] calls for the same feature, before any request is answered. *)
Definition callMany (n : nat) (featureName category : string) : M (list Started) :=
  callEach (replicate n featureName) category.

(** [await Promise.all(promises)]: every suspended call continues when its
    request is answered (here in array order; the order of the answers is
    not fixed by the code); the result is the array of the values, or the
    failure of the first call that failed. *)
Fixpoint settleEach (featureNames : list string) (promises : list Started)
    : M (list ref) := fun w =>
  match featureNames, promises with
  | name :: names, s :: rest =>
      let '(r, w1) :=
        match s with
        | Resolved cached => (Ok cached, w)
        | Awaiting filePath => loadFeature_resume name (binaryFiles env filePath) w
        end in
      let '(rs, w2) := settleEach names rest w1 in
      (let* a := r in let* others := rs in Ok (a :: others), w2)
  | _, _ => (Ok [], w)
  end.

(** [loadMultipleFeatures(featureNames, category)]: [combined[name]] is set
    for each name in turn, so a repeated name keeps its last result. *)
Definition loadMultipleFeatures (featureNames : list string) (category : string)
    : M (gmap string ref) :=
  do! promises := callEach featureNames category in
  do! results := settleEach featureNames promises in
  ret (foldl (fun combined p => <[fst p := snd p]> combined) ∅
             (zip featureNames results)).

(** *** What a caller can do with a returned array *)

(** [array[i]] *)
Definition arrayGet (w : World) (r : ref) (i : nat) : option float32 :=
  heap w !! r ≫= fun a => a !! i.

(** [array[i] = v]: a typed array ignores a store outside its bounds. *)
Definition arraySet (r : ref) (i : nat) (v : float32) : M unit := fun w =>
  (Ok tt, mkWorld (this w) (alter (fun a => <[i := v]> a) r (heap w)) (requests w)).

End Loader.

(** ** The initialisation wrapper of [realDataConstants.js] *)

(** The module variables that matter to the feature store: the singleton
    loader (with the heap and the request log), [isInitialized] and
    [BASE_DATA].  The display constants ([ALL_SLICES], [ALL_REGIONS],
    [ALL_TRAITS_FLAT], [SECTION_DATA]) are computed from the base data and
    the feature names without any request and are left out. *)
Record Constants := mkConstants {
  binaryDataLoader : World;
  isInitialized : bool;
  BASE_DATA : list Cell;
}.

Definition newConstants : Constants := mkConstants newWorld false [].

(** [initializeData()]: the [catch] block logs and rethrows. *)
Definition initializeData (env : Env) (s : Constants) : Result bool * Constants :=
  if isInitialized s then (Ok true, s)
  else
    match init env (binaryDataLoader s) with
    | (Throw e, w') => (Throw e, mkConstants w' false (BASE_DATA s))
    | (Ok _, w') =>
        match getBaseData (this w'), getAllFeatures (this w') with
        | Ok baseData, Ok _ => (Ok true, mkConstants w' true baseData)
        | Throw e, _ => (Throw e, mkConstants w' false (BASE_DATA s))
        | _, Throw e => (Throw e, mkConstants w' false (BASE_DATA s))
        end
    end.

(** [getBaseData()] of [realDataConstants.js]: the module array, which is
    empty until [initializeData] has filled it. *)
Definition Constants_getBaseData (s : Constants) : list Cell := BASE_DATA s.

(** ** Reading a sparse record as the specification describes it *)

(** The [(cellIndex, value)] pairs of a record, [n] of them from [offset]. *)
Fixpoint readPairs (buffer : ArrayBuffer) (n : nat) (offset : nat)
    : Result (list (Z * float32)) :=
  match n with
  | O => Ok []
  | S n' =>
      let* cellIndex := DataView.getUint32 buffer offset in
      let* value := DataView.getFloat32 buffer (offset + 4) in
      let* rest := readPairs buffer n' (offset + 8) in
      Ok ((cellIndex, value) :: rest)
  end.

(** The pairs a sparse feature record holds: [uint32 nonZeroCount], then
    that many pairs.  It fails exactly when the buffer is too short for
    them. *)
Definition recordPairs (buffer : ArrayBuffer) : Result (list (Z * float32)) :=
  let* nonZeroCount := DataView.getUint32 buffer 0 in
  readPairs buffer (Z.to_nat nonZeroCount) 4.

(** The value a list of pairs records for position [i]: that of the last
    pair naming [i], and zero when no pair does. *)
Definition recordedValue (pairs : list (Z * float32)) (i : nat) : float32 :=
  foldl (fun acc p => if fst p =? Z.of_nat i then snd p else acc) f32_zero pairs.

(** The pairs whose index addresses one of [n] cells. *)
Definition inRange (n : nat) (pairs : list (Z * float32)) : list (Z * float32) :=
  filter (fun p => fst p < Z.of_nat n) pairs.

(** Modelled from the spec: the encoder of the sparse feature record, which
    the repository does not contain (the files are produced upstream).  The
    record is little-endian: [uint32 nonZeroCount], then for each entry
    [uint32 cellIndex] and [float32 value]. *)
Definition encodePair (p : nat * float32) : list byte :=
  le_split 4 (Z.of_nat (fst p)) ++ le_split 4 (snd p).

Definition encodeSparse (entries : list (nat * float32)) : ArrayBuffer :=
  le_split 4 (Z.of_nat (length entries)) ++ flat_map encodePair entries.

(** The value a sparse vector gives position [i]: the value paired with
    [i], and zero when [i] is not among the indices. *)
Fixpoint valueAt (entries : list (nat * float32)) (i : nat) : float32 :=
  match entries with
  | [] => f32_zero
  | (j, v) :: rest => if Nat.eqb j i then v else valueAt rest i
  end.

(** Whether a 32-bit word encodes a NaN: all exponent bits set and a
    non-zero fraction. *)
Definition isNaN32 (w : float32) : bool :=
  (Z.land w 0x7f800000 =? 0x7f800000) && negb (Z.land w 0x007fffff =? 0).

(** Equality of float32 entries as the program can keep it.  The decoder
    passes every value through a JavaScript number, which has one NaN: which
    NaN encoding ends up in the [Float32Array] is left to the engine (a
    signalling NaN is typically quieted).  So a decoded entry is the same as
    the original when the original is not a NaN and the words are equal, or
    when both are NaNs. *)
Definition sameFloat32 (decoded original : float32) : Prop :=
  if isNaN32 original then isNaN32 decoded = true else decoded = original.

(** The dense array of length [n] a sparse vector stands for. *)
Definition denseOf (n : nat) (entries : list (nat * float32)) : list float32 :=
  map (valueAt entries) (seq 0 n).

(** A loader whose base data holds the given cell identifiers: the only
    field [_parseFeatureBinary] reads is [baseData.cellIds]. *)
Definition loaderWithCells (ids : list string) : BinaryDataLoader :=
  mkLoader "./data/binary" None (Some (mkBaseData ids [] [] [] [])) ∅.

(** An entry as the decoder reads it back. *)
Definition asRead (p : nat * float32) : Z * float32 := (Z.of_nat (fst p), snd p).

(** ** Notions used in the statements *)

(** The world after a request for [url] has been issued. *)
Definition logged (url : string) (w : World) : World :=
  mkWorld (this w) (heap w) (requests w ++ [url]).

(** A load fails when the request fails or the decoder throws. *)
Definition loadFails (t : BinaryDataLoader) (response : option ArrayBuffer) : Prop :=
  match response with
  | None => True
  | Some buffer => exists e, _parseFeatureBinary t buffer = Throw e
  end.

(** What a request for [url] followed by [parse] yields, as a function of
    the byte source alone. *)
Definition fetched {A} (env : Env) (parse : ArrayBuffer -> Result A)
    (url : string) : Result A :=
  match binaryFiles env url with
  | Some buffer => parse buffer
  | None => Throw FetchError
  end.

(** The value [_loadBaseData] computes for a loader rooted at [base]. *)
Definition baseDataOf (env : Env) (base : string) : Result BaseData :=
  let* ids := fetched env parseStringArray (base +:+ "/base/cell_ids.bin") in
  let* coords := fetched env parseCoordinates (base +:+ "/base/coordinates.bin") in
  let* secs := fetched env parseStringArray (base +:+ "/base/sections.bin") in
  let* types := fetched env parseStringArray (base +:+ "/base/celltypes.bin") in
  assembleBaseData ids coords secs types.

(** The four requests of [_loadBaseData], in the order they are issued. *)
Definition baseDataRequests (base : string) : list string :=
  [base +:+ "/base/cell_ids.bin"; base +:+ "/base/coordinates.bin";
   base +:+ "/base/sections.bin"; base +:+ "/base/celltypes.bin"].

(** Worlds in which no call of [init()] has succeeded so far. *)
Inductive neverInitialized (env : Env) : World -> Prop :=
| ni_new : neverInitialized env newWorld
| ni_init w e w' :
    neverInitialized env w -> init env w = (Throw e, w') ->
    neverInitialized env w'
| ni_loadFeature w featureName category r w' :
    neverInitialized env w -> loadFeature env featureName category w = (r, w') ->
    neverInitialized env w'
| ni_clearCache w r w' :
    neverInitialized env w -> clearCache w = (r, w') ->
    neverInitialized env w'.

(** One operation of the feature store on the world: [init()],
    [loadFeature(name, category)] or [clearCache()], each run to its end. *)
Inductive loaderStep (env : Env) : World -> World -> Prop :=
| step_init w :
    loaderStep env w (snd (init env w))
| step_loadFeature featureName category w :
    loaderStep env w (snd (loadFeature env featureName category w))
| step_clearCache w :
    loaderStep env w (snd (clearCache w)).

(** The worlds the singleton loader can be in. *)
Definition reachable (env : Env) (w : World) : Prop :=
  rtc (loaderStep env) newWorld w.

(** [vec] is the decoding, over the cells of [bd], of one of the files of
    the feature [featureName]: it has one entry per cell identifier and
    entry [i] is the value the file records for index [i]. *)
Definition decodes (env : Env) (t : BinaryDataLoader) (bd : BaseData)
    (featureName : string) (vec : list float32) : Prop :=
  exists category buffer pairs,
    binaryFiles env (featurePath t featureName category) = Some buffer /\
    recordPairs buffer = Ok pairs /\
    length vec = length (cellIds bd) /\
    forall i, (i < length (cellIds bd))%nat ->
              vec !! i = Some (recordedValue pairs i).

(** The invariant of the loader: the base data, once present, is the one
    the byte source defines, and every cached array is the decoding of a
    file of its feature over that base data. *)
Definition cacheAligned (env : Env) (w : World) : Prop :=
  basePath (this w) = basePath constructor /\
  (forall bd, baseData (this w) = Some bd ->
              baseDataOf env (basePath (this w)) = Ok bd) /\
  (forall featureName r, loadedFeatures (this w) !! featureName = Some r ->
     exists bd vec,
       baseData (this w) = Some bd /\
       heap w !! r = Some vec /\
       decodes env (this w) bd featureName vec).

(** The record the file of a feature under a category holds, when the file
    is there and complete. *)
Definition recordOf (env : Env) (t : BinaryDataLoader)
    (featureName category : string) : option (list (Z * float32)) :=
  match binaryFiles env (featurePath t featureName category) with
  | Some buffer =>
      match recordPairs buffer with
      | Ok pairs => Some pairs
      | Throw _ => None
      end
  | None => None
  end.

(** The category each cached feature was loaded under, after a
    [loadFeature(featureName, category)] that led from [w] to [w']: the
    call's category when the call put the feature in the cache. *)
Definition originAfter (w w' : World) (origin : gmap string string)
    (featureName category : string) : gmap string string :=
  match loadedFeatures (this w) !! featureName,
        loadedFeatures (this w') !! featureName with
  | None, Some _ => <[featureName := category]> origin
  | _, _ => origin
  end.

(** The worlds the singleton loader can be in, each with the record of the
    category under which every cached feature was loaded (the loader itself
    keeps no such record: its cache is keyed by the name alone). *)
Inductive history (env : Env) : World -> gmap string string -> Prop :=
| history_new : history env newWorld ∅
| history_init w origin :
    history env w origin -> history env (snd (init env w)) origin
| history_loadFeature w origin featureName category :
    history env w origin ->
    history env (snd (loadFeature env featureName category w))
            (originAfter w (snd (loadFeature env featureName category w))
                         origin featureName category)
| history_clearCache w origin :
    history env w origin -> history env (snd (clearCache w)) ∅.

(** Every cached array holds, entry by entry, what the file of its feature
    under its category of origin records. *)
Definition originAligned (env : Env) (w : World) (origin : gmap string string)
    : Prop :=
  forall featureName r, loadedFeatures (this w) !! featureName = Some r ->
    exists category vec pairs,
      origin !! featureName = Some category /\
      heap w !! r = Some vec /\
      recordOf env (this w) featureName category = Some pairs /\
      forall i, (i < length vec)%nat -> vec !! i = Some (recordedValue pairs i).

(** ** The request de-duplication of [dataManager.js] *)

(** The names a plain object ([{}]) answers to without having them as own
    properties: it inherits them from [Object.prototype].  A read
    [object[name]] of one of them gives the inherited value, and the
    assignment [object["__proto__"] = v] sets the prototype instead of
    creating a property.  The finite maps below stand for the own
    properties; the statements about plain objects used as maps are made
    for names outside this list. *)
Definition objectPrototypeKeys : list string :=
  ["constructor"; "hasOwnProperty"; "isPrototypeOf"; "propertyIsEnumerable";
   "toLocaleString"; "toString"; "valueOf"; "__proto__";
   "__defineGetter__"; "__defineSetter__";
   "__lookupGetter__"; "__lookupSetter__"]%string.

Module DataManager.

(** One row of a sparse matrix: the values of a feature by cell id. *)
Abbreviation Row := (gmap string Z) (only parsing).

Definition GENE_EXPRESSION_SPARSE_FILE : string :=
  "./data/gene_expression_sparse.json".

(** The fields of a [DataManager] used by [loadGeneExpression]; a promise
    is named by the order of its creation. *)
Record DataManager := mkManager {
  geneData : gmap string Row;
  geneSparseMatrix : option (gmap string Row);
  isGeneMatrixLoaded : bool;
  loadingPromises : gmap string nat;
}.

(** The manager, the number of promises created so far and the files
    [loadSparseMatrix] was called on so far (oldest first).
    [loadSparseMatrix] itself belongs to [sparseMatrixConverter.js]; only
    the fact that it is called, and on what, is recorded. *)
Record State := mkState {
  manager : DataManager;
  promises : nat;
  matrixLoads : list string;
}.

Definition newState : State := mkState (mkManager ∅ None false ∅) 0 [].

(** How a call of [loadGeneExpression] leaves its synchronous part. *)
Inductive Joined : Type :=
| Cached (row : Row)     (* [this.geneData[geneName]] was there *)
| Shares (p : nat)       (* returned the promise found in [loadingPromises] *)
| Starts (p : nat).      (* created the promise [p] and awaits it *)

(** [_loadGeneExpressionImpl(geneName)] up to its first [await]: with the
    matrix not loaded it calls [loadSparseMatrix] and waits; otherwise it
    runs to its end and stores the row.  Its promise is the next one. *)
Definition _loadGeneExpressionImpl_call (geneName : string) (s : State)
    : nat * State :=
  let m := manager s in
  let p := promises s in
  if isGeneMatrixLoaded m
  then
    let row := default ∅ (geneSparseMatrix m ≫= fun mx => mx !! geneName) in
    (p, mkState (mkManager (<[geneName := row]> (geneData m)) (geneSparseMatrix m)
                           (isGeneMatrixLoaded m) (loadingPromises m))
                (S p) (matrixLoads s))
  else
    (p, mkState m (S p) (matrixLoads s ++ [GENE_EXPRESSION_SPARSE_FILE])).

(** [loadGeneExpression(geneName)] up to its [await]. *)
Definition loadGeneExpression_call (geneName : string) (s : State)
    : Joined * State :=
  let m := manager s in
  match geneData m !! geneName with
  | Some row => (Cached row, s)
  | None =>
      match loadingPromises m !! ("gene_" +:+ geneName) with
      | Some p => (Shares p, s)
      | None =>
          let '(loadPromise, s1) := _loadGeneExpressionImpl_call geneName s in
          let m1 := manager s1 in
          (Starts loadPromise,
           mkState (mkManager (geneData m1) (geneSparseMatrix m1)
                              (isGeneMatrixLoaded m1)
                              (<["gene_" +:+ geneName := loadPromise]>
                                 (loadingPromises m1)))
                   (promises s1) (matrixLoads s1))
      end
  end.

(** [n] calls for the same gene, one after the other, before anything
    that was awaited answers. *)
Fixpoint callMany (n : nat) (geneName : string) (s : State)
    : list Joined * State :=
  match n with
  | O => ([], s)
  | S n' =>
      let '(j, s1) := loadGeneExpression_call geneName s in
      let '(js, s2) := callMany n' geneName s1 in
      (j :: js, s2)
  end.

(** *** The rest of a load, and the other operations *)

(** [_loadGeneExpressionImpl] from the answer of [loadSparseMatrix] on: a
    rejection is passed on; otherwise the matrix is stored and marked
    loaded, and the gene's row (the empty row when the matrix has none) is
    stored and returned. *)
Definition _loadGeneExpressionImpl_resume (geneName : string)
    (answer : Result (gmap string Row)) (s : State) : Result Row * State :=
  match answer with
  | Throw e => (Throw e, s)
  | Ok matrix =>
      let m := manager s in
      let row := default ∅ (matrix !! geneName) in
      (Ok row,
       mkState (mkManager (<[geneName := row]> (geneData m)) (Some matrix) true
                          (loadingPromises m))
               (promises s) (matrixLoads s))
  end.

(** [loadGeneExpression] from the settling of its promise on: the entry of
    [loadingPromises] is deleted, then the result is returned or the error
    thrown again. *)
Definition loadGeneExpression_settle (geneName : string) (result : Result Row)
    (s : State) : Result Row * State :=
  let m := manager s in
  (result,
   mkState (mkManager (geneData m) (geneSparseMatrix m) (isGeneMatrixLoaded m)
                      (delete ("gene_" +:+ geneName) (loadingPromises m)))
           (promises s) (matrixLoads s)).

(** What a call of [loadGeneExpression] run to its end gives its caller: a
    value or an error of its own, or the promise of a load that another
    call started. *)
Inductive Outcome : Type :=
| Returned (r : Result Row)
| Pending (p : nat).

(** [loadGeneExpression(geneName)] run to its end; [answer] is what
    [loadSparseMatrix] answers if this call calls it. *)
Definition loadGeneExpression (answer : Result (gmap string Row))
    (geneName : string) (s : State) : Outcome * State :=
  match loadGeneExpression_call geneName s with
  | (Cached row, s1) => (Returned (Ok row), s1)
  | (Shares p, s1) => (Pending p, s1)
  | (Starts _, s1) =>
      let '(r, s2) :=
        if isGeneMatrixLoaded (manager s)
        then (Ok (default ∅ (geneData (manager s1) !! geneName)), s1)
        else _loadGeneExpressionImpl_resume geneName answer s1 in
      let '(r', s3) := loadGeneExpression_settle geneName r s2 in
      (Returned r', s3)
  end.

(** [clearCache()], on the fields modelled: the loaded genes and the
    markers are dropped, the matrix is kept. *)
Definition clearCache (s : State) : State :=
  let m := manager s in
  mkState (mkManager ∅ (geneSparseMatrix m) (isGeneMatrixLoaded m) ∅)
          (promises s) (matrixLoads s).

(** Calls for several genes, one after the other, before anything that was
    awaited answers. *)
Fixpoint callEach (geneNames : list string) (s : State) : list Joined * State :=
  match geneNames with
  | [] => ([], s)
  | g :: gs =>
      let '(j, s1) := loadGeneExpression_call g s in
      let '(js, s2) := callEach gs s1 in
      (j :: js, s2)
  end.

End DataManager.

(** ** Sample data *)

(** A record with one pair, [(cellIndex 5, value 1.0f)]. *)
Definition recordIndex5 : ArrayBuffer :=
  [x01; x00; x00; x00;  x05; x00; x00; x00;  x00; x00; x80; x3f].

(** A loader over two cells. *)
Definition twoCells : BinaryDataLoader := loaderWithCells ["c0"; "c1"]%string.

(** A loader over three cells and a sparse vector on them: [1.0f] at cell
    2, [2.0f] at cell 0 and a signalling NaN at cell 1. *)
Definition threeCells : BinaryDataLoader := loaderWithCells ["c0"; "c1"; "c2"]%string.

Definition sparseSample : list (nat * float32) :=
  [(2%nat, 0x3f800000); (0%nat, 0x40000000); (1%nat, 0x7fa00001)].

(** A small deployment: two cells ["c0"] and ["c1"], one gene file
    [genes/X.bin] recording [1.0f] for cell 1, and no other feature file. *)
Definition cellIdsFile : ArrayBuffer :=
  [x02; x00; x00; x00;
   x02; x00; x00; x00; x63; x30;
   x02; x00; x00; x00; x63; x31].

Definition coordinatesFile : ArrayBuffer :=
  [x02; x00; x00; x00;
   x00; x00; x80; x3f;  x00; x00; x00; x40;
   x00; x00; x40; x40;  x00; x00; x80; x40].

Definition sectionsFile : ArrayBuffer :=
  [x02; x00; x00; x00;
   x02; x00; x00; x00; x73; x31;
   x02; x00; x00; x00; x73; x32].

Definition celltypesFile : ArrayBuffer :=
  [x02; x00; x00; x00;
   x01; x00; x00; x00; x61;
   x01; x00; x00; x00; x62].

Definition geneXFile : ArrayBuffer :=
  [x01; x00; x00; x00;  x01; x00; x00; x00;  x00; x00; x80; x3f].

Definition sampleFiles (url : string) : option ArrayBuffer :=
  if String.eqb url "./data/binary/base/cell_ids.bin" then Some cellIdsFile
  else if String.eqb url "./data/binary/base/coordinates.bin" then Some coordinatesFile
  else if String.eqb url "./data/binary/base/sections.bin" then Some sectionsFile
  else if String.eqb url "./data/binary/base/celltypes.bin" then Some celltypesFile
  else if String.eqb url "./data/binary/genes/X.bin" then Some geneXFile
  else None.

Definition sampleMetadata : Metadata :=
  mkMetadata (Some (mkCatalog 1 (Some ["X"%string]))) (Some (mkCatalog 0 (Some []))).

Definition sampleEnv : Env :=
  mkEnv sampleFiles
        (fun url => if String.eqb url "./data/binary/metadata.json"
                    then Some sampleMetadata else None).

(** The same deployment with a descriptor that lacks the [tfs] category. *)
Definition partialMetadata : Metadata :=
  mkMetadata (Some (mkCatalog 1 (Some ["X"%string]))) None.

Definition partialEnv : Env :=
  mkEnv sampleFiles
        (fun url => if String.eqb url "./data/binary/metadata.json"
                    then Some partialMetadata else None).

(** The world once [init()] has run on the sample deployment. *)
Definition sampleWorld : World := snd (init sampleEnv newWorld).

(** ** Byte layouts the decoders read *)

(** The count a table or record announces in its first four bytes. *)
Definition announcedCount (buffer : ArrayBuffer) : nat :=
  Z.to_nat (le_combine (take 4 buffer)).

(** The eight bytes [_loadCoordinates] reads for one coordinate. *)
Definition coordinateBytes (c : Coordinate) : list byte :=
  le_split 4 (cx c) ++ le_split 4 (cy c).

(** A coordinate table: the count, then the coordinates. *)
Definition coordinateTable (cs : list Coordinate) : list byte :=
  le_split 4 (Z.of_nat (length cs)) ++ flat_map coordinateBytes cs.

(** The bytes [_loadStringArray] reads for one string: its byte length,
    then its bytes. *)
Definition stringBytes (bs : list byte) : list byte :=
  le_split 4 (Z.of_nat (length bs)) ++ bs.

(** A string table: the count, then the strings. *)
Definition stringTable (strs : list (list byte)) : list byte :=
  le_split 4 (Z.of_nat (length strs)) ++ flat_map stringBytes strs.

(** ** Notions used in the further statements *)

(** What a successful load leaves behind: the loader (with the decoded
    array cached under the name, at the next free reference [r]) and the
    contents of the array handed out; on a failed load the loader is kept
    and the array is all zero. *)
Definition afterLoad (t : BinaryDataLoader) (bd : BaseData) (featureName : string)
    (r : ref) (response : option ArrayBuffer) : BinaryDataLoader * list float32 :=
  match response ≫= fun buffer =>
          match _parseFeatureBinary t buffer with
          | Ok contents => Some contents
          | Throw _ => None
          end with
  | Some contents =>
      (mkLoader (basePath t) (metadata t) (baseData t)
                (<[featureName := r]> (loadedFeatures t)), contents)
  | None => (t, replicate (length (cellIds bd)) f32_zero)
  end.

(** How a call of [loadFeature] for [name] starts on the loader [t]. *)
Definition startOf (t : BinaryDataLoader) (category name : string) : Started :=
  match loadedFeatures t !! name with
  | Some cached => Resolved cached
  | None => Awaiting (featurePath t name category)
  end.

(** The request such a call issues, if any. *)
Definition requestOf (t : BinaryDataLoader) (category name : string) : option string :=
  match loadedFeatures t !! name with
  | Some _ => None
  | None => Some (featurePath t name category)
  end.


(** The object [loadMultipleFeatures] builds from the names and the results. *)
Definition combined (featureNames : list string) (results : list ref)
    : gmap string ref :=
  foldl (fun acc p => <[fst p := snd p]> acc) ∅ (zip featureNames results).

(** The sample deployment with one more gene file, [genes/T.bin], which
    announces two pairs and holds one. *)
Definition geneTFile : ArrayBuffer :=
  [x02; x00; x00; x00;  x00; x00; x00; x00;  x00; x00; x80; x3f].

Definition brokenEnv : Env :=
  mkEnv (fun url => if String.eqb url "./data/binary/genes/T.bin"
                    then Some geneTFile else sampleFiles url)
        (jsonFiles sampleEnv).

(** ** [loadFeatureData] of [realDataConstants.js] *)

(** The values the rows of [loadFeatureData] hold. *)
Inductive JsValue : Type :=
| VString (s : string)
| VNumber (v : float32)
| VUndefined.

Definition optString (o : option string) : JsValue :=
  match o with
  | Some s => VString s
  | None => VUndefined
  end.

(** The own properties of a cell object, by name (their order is not
    kept). *)
Definition cellObject (c : Cell) : gmap string JsValue :=
  <["region" := optString (region c)]>
    (<["slice" := optString (slice c)]>
       (<["y" := VNumber (y c)]>
          (<["x" := VNumber (x c)]>
             (<["id" := VString (id c)]> ∅)))).

(** [featureArray[index]] as a value: [undefined] outside the array. *)
Definition elementOf (w : World) (r : ref) (index : nat) : JsValue :=
  match arrayGet w r index with
  | Some v => VNumber v
  | None => VUndefined
  end.

(** [loadFeatureData(featureName, category)]: initialise if that has not
    been done, load the feature, and return for every cell of [BASE_DATA] a
    copy of the cell with the feature's value under the feature's name. *)
Definition loadFeatureData (env : Env) (featureName category : string)
    (s : Constants) : Result (list (gmap string JsValue)) * Constants :=
  let '(r0, s0) := if isInitialized s then (Ok true, s) else initializeData env s in
  match r0 with
  | Throw e => (Throw e, s0)
  | Ok _ =>
      match loadFeature env featureName category (binaryDataLoader s0) with
      | (Throw e, w') => (Throw e, mkConstants w' (isInitialized s0) (BASE_DATA s0))
      | (Ok featureArray, w') =>
          (Ok (imap (fun index cell =>
                       <[featureName := elementOf w' featureArray index]>
                         (cellObject cell))
                    (BASE_DATA s0)),
           mkConstants w' (isInitialized s0) (BASE_DATA s0))
      end
  end.

(** What the module keeps true: the loader's cache is aligned with the
    byte source, and once [isInitialized] is set, [BASE_DATA] holds the
    cells of the loader. *)
Definition moduleAligned (env : Env) (s : Constants) : Prop :=
  cacheAligned env (binaryDataLoader s) /\
  (isInitialized s = true ->
   getBaseData (this (binaryDataLoader s)) = Ok (BASE_DATA s)).

(** ** The trait list of [initializeData] *)

Module Traits.

(** [s.includes(pattern)] *)
Fixpoint includes (pattern s : string) : bool :=
  String.prefix pattern s ||
  match s with
  | EmptyString => false
  | String _ s' => includes pattern s'
  end.

(** The string without its first [n] characters. *)
Fixpoint dropString (n : nat) (s : string) : string :=
  match n, s with
  | O, _ => s
  | S n', String _ s' => dropString n' s'
  | S _, EmptyString => EmptyString
  end.

(** [s.replace(pattern, replacement)] for a non-empty string [pattern] and
    a [replacement] without [$]: the first occurrence is replaced. *)
Fixpoint replaceFirst (pattern replacement s : string) : string :=
  if String.prefix pattern s
  then replacement +:+ dropString (String.length pattern) s
  else match s with
       | EmptyString => EmptyString
       | String c s' => String c (replaceFirst pattern replacement s')
       end.

(** The label computed for a transcription-factor feature. *)
Definition tfLabel (tf : string) : string :=
  if includes "(direct)" tf
  then replaceFirst " activity(direct)" " Activity (Direct)" tf
  else if includes "(extended)" tf
       then replaceFirst " activity(extended)" " Activity (Extended)" tf
       else tf +:+ "".

Record Trait := mkTrait {
  key : string;
  label : string;
  category : string;
}.

(** The contents of [ALL_TRAITS_FLAT] after [initializeData]: the genes,
    then the transcription factors. *)
Definition buildTraits (features : list string * list string) : list Trait :=
  map (fun gene => mkTrait gene gene "gene") (fst features)
  ++ map (fun tf => mkTrait tf (tfLabel tf) "tf_activity") (snd features).

End Traits.

(* ================================================================= *)
(** * Properties *)

(** ** Little-endian reads of what was written *)

Lemma getUint32_at (pre post : list byte) (z : Z) :
  DataView.getUint32 (pre ++ le_split 4 z ++ post) (length pre)
  = Ok (z mod 2 ^ 32).
Proof.
  unfold DataView.getUint32.
  rewrite !length_app, length_le_split.
  destruct (Nat.leb_spec (length pre + 4) (length pre + (4 + length post))) as [_|?];
    [|lia].
  rewrite drop_app_length.
  rewrite take_app_length' by (symmetry; apply length_le_split).
  now rewrite le_combine_split.
Qed.

Lemma getFloat32_at (pre post : list byte) (z : Z) :
  DataView.getFloat32 (pre ++ le_split 4 z ++ post) (length pre)
  = Ok (z mod 2 ^ 32).
Proof. exact (getUint32_at pre post z). Qed.

Lemma getUint32_nonneg buffer offset z :
  DataView.getUint32 buffer offset = Ok z -> 0 <= z.
Proof.
  unfold DataView.getUint32. destruct (_ <=? _)%nat; [|discriminate].
  intros [= <-]. apply le_combine_bound.
Qed.

(** ** The decoder scatters the pairs of the record *)

Lemma fillNonZero_readPairs buffer n : forall offset featureArray,
  fillNonZero buffer n offset featureArray
  = (let* pairs := readPairs buffer n offset in
     Ok (foldl storePair featureArray pairs)).
Proof.
  induction n as [|n IH]; intros offset arr; simpl; [reflexivity|].
  destruct (DataView.getUint32 buffer offset) as [cellIndex|e]; simpl; [|reflexivity].
  destruct (DataView.getFloat32 buffer (offset + 4)) as [value|e]; simpl; [|reflexivity].
  rewrite IH.
  destruct (readPairs buffer n (offset + 8)) as [rest|e]; reflexivity.
Qed.

Lemma readPairs_nonneg buffer n : forall offset pairs,
  readPairs buffer n offset = Ok pairs -> Forall (fun p => 0 <= fst p) pairs.
Proof.
  induction n as [|n IH]; intros offset pairs; simpl.
  - intros [= <-]. constructor.
  - destruct (DataView.getUint32 buffer offset) as [cellIndex|e] eqn:Hi; simpl; [|discriminate].
    destruct (DataView.getFloat32 buffer (offset + 4)) as [value|e]; simpl; [|discriminate].
    destruct (readPairs buffer n (offset + 8)) as [rest|e] eqn:Hr; simpl; [|discriminate].
    intros [= <-]. constructor.
    + simpl. eapply getUint32_nonneg, Hi.
    + eapply IH, Hr.
Qed.

Lemma readPairs_length buffer n : forall offset pairs,
  readPairs buffer n offset = Ok pairs -> length pairs = n.
Proof.
  induction n as [|n IH]; intros offset pairs; simpl.
  - now intros [= <-].
  - destruct (DataView.getUint32 buffer offset); simpl; [|discriminate].
    destruct (DataView.getFloat32 buffer (offset + 4)); simpl; [|discriminate].
    destruct (readPairs buffer n (offset + 8)) eqn:Hr; simpl; [|discriminate].
    intros [= <-]. simpl. f_equal. eapply IH, Hr.
Qed.

Lemma storePair_length arr p : length (storePair arr p) = length arr.
Proof. unfold storePair. destruct (_ <? _); [apply length_insert | reflexivity]. Qed.

Lemma foldl_storePair_length pairs : forall arr,
  length (foldl storePair arr pairs) = length arr.
Proof.
  induction pairs as [|p pairs IH]; intros arr; simpl; [reflexivity|].
  now rewrite IH, storePair_length.
Qed.

(** Reading position [i] after the stores: the value of the last pair that
    names [i], or what the array held before. *)
Lemma foldl_storePair_lookup pairs : forall (arr : list float32) (i : nat) (d : float32),
  Forall (fun p => 0 <= fst p) pairs ->
  arr !! i = Some d ->
  foldl storePair arr pairs !! i
  = Some (foldl (fun acc p => if fst p =? Z.of_nat i then snd p else acc) d pairs).
Proof.
  induction pairs as [|[j v] pairs IH]; intros arr i d Hnn Hi; simpl; [exact Hi|].
  inversion Hnn as [|? ? Hj Hnn']; subst; simpl in Hj.
  apply IH; [exact Hnn'|].
  unfold storePair; simpl.
  pose proof (lookup_lt_Some _ _ _ Hi) as Hlt.
  destruct (Z.ltb_spec j (Z.of_nat (length arr))) as [Hin|Hout].
  - destruct (Z.eqb_spec j (Z.of_nat i)) as [->|Hne].
    + rewrite Nat2Z.id. now apply list_lookup_insert_eq.
    + rewrite list_lookup_insert_ne by lia. exact Hi.
  - destruct (Z.eqb_spec j (Z.of_nat i)) as [->|Hne]; [lia | exact Hi].
Qed.

(** Pairs that address no cell record nothing for any cell. *)
Lemma recordedValue_inRange n pairs i :
  (i < n)%nat -> recordedValue (inRange n pairs) i = recordedValue pairs i.
Proof.
  intros Hi. unfold recordedValue, inRange. generalize f32_zero.
  induction pairs as [|[j v] pairs IH]; intros d; simpl; [reflexivity|].
  rewrite filter_cons. simpl.
  destruct (decide (j < Z.of_nat n)) as [Hin|Hout]; simpl.
  - apply IH.
  - destruct (Z.eqb_spec j (Z.of_nat i)) as [->|_]; [lia | apply IH].
Qed.

(** [_parseFeatureBinary] on a loader with base data: read the pairs, then
    scatter them over a zero array with one entry per cell. *)
Lemma _parseFeatureBinary_pairs t bd buffer :
  baseData t = Some bd ->
  _parseFeatureBinary t buffer
  = (let* pairs := recordPairs buffer in
     Ok (foldl storePair (replicate (length (cellIds bd)) f32_zero) pairs)).
Proof.
  intros Hbd. unfold _parseFeatureBinary, recordPairs, cellCount. rewrite Hbd.
  destruct (DataView.getUint32 buffer 0) as [c|e]; simpl; [|reflexivity].
  apply fillNonZero_readPairs.
Qed.

Lemma recordPairs_nonneg buffer pairs :
  recordPairs buffer = Ok pairs -> Forall (fun p => 0 <= fst p) pairs.
Proof.
  unfold recordPairs. destruct (DataView.getUint32 buffer 0); simpl; [|discriminate].
  apply readPairs_nonneg.
Qed.

(** The decoded array, entry by entry. *)
Lemma decoded_entries t bd buffer pairs :
  baseData t = Some bd ->
  recordPairs buffer = Ok pairs ->
  exists featureArray,
    _parseFeatureBinary t buffer = Ok featureArray /\
    length featureArray = length (cellIds bd) /\
    forall i, (i < length (cellIds bd))%nat ->
              featureArray !! i = Some (recordedValue pairs i).
Proof.
  intros Hbd Hp. rewrite (_parseFeatureBinary_pairs _ _ _ Hbd), Hp. simpl.
  eexists; split; [reflexivity|]. split.
  - now rewrite foldl_storePair_length, length_replicate.
  - intros i Hi. apply foldl_storePair_lookup.
    + eapply recordPairs_nonneg, Hp.
    + now apply lookup_replicate_2.
Qed.

(** ** Out-of-range indices (C2) *)

(** The record [recordIndex5] is complete and holds the single pair
    [(5, 1.0f)]; over two cells its index is out of range, and the decoder
    returns the all-zero array instead of failing. *)
Lemma recordIndex5_decodes :
  recordPairs recordIndex5 = Ok [(5, 0x3f800000)] /\
  _parseFeatureBinary twoCells recordIndex5 = Ok [0; 0].
Proof. split; reflexivity. Qed.

(** C2, counterexample: it is not the case that every record holding a pair
    with [cellIndex >= cellCount] makes the decoder fail. *)
Lemma out_of_range_not_rejected :
  ~ (forall t bd buffer pairs,
        baseData t = Some bd ->
        recordPairs buffer = Ok pairs ->
        Exists (fun p => Z.of_nat (length (cellIds bd)) <= fst p) pairs ->
        exists e, _parseFeatureBinary t buffer = Throw e).
Proof.
  intros H.
  destruct (H twoCells (mkBaseData ["c0"; "c1"]%string [] [] [] [])
              recordIndex5 [(5, 0x3f800000)]) as [e He].
  - reflexivity.
  - reflexivity.
  - constructor. simpl. lia.
  - discriminate He.
Qed.

(** C2, amended: for a complete record the decoder succeeds; the array it
    returns has exactly one entry per cell, and its entries are those the
    in-range pairs of the record give: pairs with [cellIndex >= cellCount]
    are skipped and nothing is stored outside the array. *)
Theorem out_of_range_pairs_skipped t bd buffer pairs :
  baseData t = Some bd ->
  recordPairs buffer = Ok pairs ->
  exists featureArray,
    _parseFeatureBinary t buffer = Ok featureArray /\
    length featureArray = length (cellIds bd) /\
    forall i, (i < length (cellIds bd))%nat ->
      featureArray !! i
      = Some (recordedValue (inRange (length (cellIds bd)) pairs) i).
Proof.
  intros Hbd Hp.
  destruct (decoded_entries t bd buffer pairs Hbd Hp) as (arr & Harr & Hlen & Hent).
  exists arr. repeat split; [exact Harr | exact Hlen |].
  intros i Hi. rewrite recordedValue_inRange by exact Hi. now apply Hent.
Qed.

Lemma out_of_range_pairs_skipped_witness :
  exists featureArray,
    _parseFeatureBinary twoCells recordIndex5 = Ok featureArray /\
    length featureArray = 2%nat /\
    forall i, (i < 2)%nat ->
      featureArray !! i = Some (recordedValue (inRange 2 [(5, 0x3f800000)]) i).
Proof.
  exact (out_of_range_pairs_skipped twoCells
           (mkBaseData ["c0"; "c1"]%string [] [] [] [])
           recordIndex5 [(5, 0x3f800000)] eq_refl eq_refl).
Defined.

(** ** Encoding then decoding (C9) *)

Lemma readPairs_encoded entries : forall pre : list byte,
  Forall (fun p => Z.of_nat (fst p) < 2 ^ 32 /\ 0 <= snd p < 2 ^ 32) entries ->
  readPairs (pre ++ flat_map encodePair entries) (length entries) (length pre)
  = Ok (map asRead entries).
Proof.
  induction entries as [|[j v] entries IH]; intros pre Hb; [reflexivity|].
  inversion Hb as [|? ? [Hj Hv] Hb']; subst; simpl in Hj, Hv.
  cbn [length readPairs flat_map]. change (encodePair (j, v)) with (le_split 4 (Z.of_nat j) ++ le_split 4 v).
  rewrite <- !app_assoc.
  rewrite getUint32_at. cbn [bindR].
  replace (pre ++ le_split 4 (Z.of_nat j) ++ le_split 4 v ++ flat_map encodePair entries)
    with ((pre ++ le_split 4 (Z.of_nat j)) ++ le_split 4 v ++ flat_map encodePair entries)
    by now rewrite <- app_assoc.
  replace (length pre + 4)%nat with (length (pre ++ le_split 4 (Z.of_nat j)))
    by now rewrite length_app, length_le_split.
  rewrite getFloat32_at. cbn [bindR].
  replace ((pre ++ le_split 4 (Z.of_nat j)) ++ le_split 4 v ++ flat_map encodePair entries)
    with ((pre ++ le_split 4 (Z.of_nat j) ++ le_split 4 v) ++ flat_map encodePair entries)
    by now rewrite <- !app_assoc.
  replace (length pre + 8)%nat
    with (length (pre ++ le_split 4 (Z.of_nat j) ++ le_split 4 v))
    by (rewrite !length_app, !length_le_split; lia).
  rewrite IH by exact Hb'. cbn [bindR map].
  unfold asRead at 2; simpl.
  now rewrite !Z.mod_small by lia.
Qed.

Lemma recordPairs_encoded entries :
  Z.of_nat (length entries) < 2 ^ 32 ->
  Forall (fun p => Z.of_nat (fst p) < 2 ^ 32 /\ 0 <= snd p < 2 ^ 32) entries ->
  recordPairs (encodeSparse entries) = Ok (map asRead entries).
Proof.
  intros Hn Hb. unfold recordPairs, encodeSparse.
  pose proof (getUint32_at [] (flat_map encodePair entries)
                (Z.of_nat (length entries))) as H0.
  cbn [app length] in H0. rewrite H0. cbn [bindR].
  rewrite Z.mod_small by lia. rewrite Nat2Z.id.
  exact (readPairs_encoded entries (le_split 4 (Z.of_nat (length entries))) Hb).
Qed.

(** With distinct indices the last pair naming a position is the only one. *)
Lemma recordedValue_absent entries i d :
  i ∉ map fst entries ->
  foldl (fun acc p => if fst p =? Z.of_nat i then snd p else acc) d
        (map asRead entries) = d.
Proof.
  revert d. induction entries as [|[j v] entries IH]; intros d Hi; [reflexivity|].
  cbn [map foldl asRead fst snd] in *.
  apply not_elem_of_cons in Hi as [Hne Hi].
  destruct (Z.eqb_spec (Z.of_nat j) (Z.of_nat i)) as [Heq|_]; [lia|].
  now apply IH.
Qed.

Lemma recordedValue_asRead entries i :
  NoDup (map fst entries) ->
  recordedValue (map asRead entries) i = valueAt entries i.
Proof.
  unfold recordedValue.
  induction entries as [|[j v] entries IH]; intros Hnd.
  - reflexivity.
  - apply NoDup_cons in Hnd as [Hj Hnd]. cbn [map foldl asRead fst snd valueAt].
    destruct (Nat.eqb_spec j i) as [->|Hne].
    + rewrite Z.eqb_refl. now apply recordedValue_absent.
    + destruct (Z.eqb_spec (Z.of_nat j) (Z.of_nat i)) as [Heq|_]; [lia|].
      now apply IH.
Qed.

Lemma sameFloat32_refl (v : Z) : sameFloat32 v v.
Proof. unfold sameFloat32. now destruct (isNaN32 v) eqn:H. Qed.

(** C9: for every [cellCount], every sparse vector with distinct indices
    below [cellCount] and float32 values, whose count and indices fit the
    uint32 fields of the record, decoding its little-endian record succeeds
    and gives back its dense array of length [cellCount], entry by entry:
    an entry that is not a NaN comes back with the same bits, a NaN comes
    back a NaN.  The empty vector is the case [entries = []]. *)
Theorem encode_decode_roundtrip t bd entries :
  baseData t = Some bd ->
  NoDup (map fst entries) ->
  Z.of_nat (length entries) < 2 ^ 32 ->
  Forall (fun p => (fst p < length (cellIds bd))%nat /\
                   Z.of_nat (fst p) < 2 ^ 32 /\
                   0 <= snd p < 2 ^ 32) entries ->
  exists featureArray,
    _parseFeatureBinary t (encodeSparse entries) = Ok featureArray /\
    Forall2 sameFloat32 featureArray (denseOf (length (cellIds bd)) entries).
Proof.
  intros Hbd Hnd Hn Hb.
  assert (Hp : recordPairs (encodeSparse entries) = Ok (map asRead entries)).
  { apply recordPairs_encoded; [exact Hn|].
    eapply Forall_impl; [exact Hb|]. intros p (_ & ? & ?). now split. }
  destruct (decoded_entries t bd _ _ Hbd Hp) as (arr & Harr & Hl & Hent).
  exists arr. split; [exact Harr|].
  apply Forall2_same_length_lookup_2.
  - unfold denseOf. now rewrite length_map, length_seq.
  - intros i v original Hv Ho.
    assert (Hi : (i < length (cellIds bd))%nat)
      by (apply lookup_lt_Some in Hv; lia).
    rewrite (Hent i Hi) in Hv. injection Hv as <-.
    unfold denseOf in Ho.
    rewrite list_lookup_fmap, lookup_seq_lt in Ho by exact Hi.
    injection Ho as <-. simpl.
    rewrite recordedValue_asRead by exact Hnd. apply sameFloat32_refl.
Qed.

Lemma encode_decode_roundtrip_witness :
  exists featureArray,
    _parseFeatureBinary threeCells (encodeSparse sparseSample) = Ok featureArray /\
    Forall2 sameFloat32 featureArray [0x40000000; 0x7fa00001; 0x3f800000].
Proof.
  refine (encode_decode_roundtrip threeCells
            (mkBaseData ["c0"; "c1"; "c2"]%string [] [] [] [])
            sparseSample eq_refl _ _ _).
  - exact (bool_decide_unpack (NoDup (map fst sparseSample)) I).
  - simpl. lia.
  - repeat constructor; simpl; lia.
Defined.

(** The empty vector: a record with a zero count decodes to all zeros. *)
Lemma encode_decode_empty t bd :
  baseData t = Some bd ->
  _parseFeatureBinary t (encodeSparse [])
  = Ok (replicate (length (cellIds bd)) f32_zero).
Proof.
  intros Hbd. rewrite (_parseFeatureBinary_pairs _ _ _ Hbd). reflexivity.
Qed.

(** ** [loadFeature], case by case *)

(** The first half of a call that misses the cache: the request is issued
    and the call waits for it. *)
Lemma loadFeature_call_miss featureName category w :
  loadedFeatures (this w) !! featureName = None ->
  loadFeature_call featureName category w
  = (Ok (Awaiting (featurePath (this w) featureName category)),
     logged (featurePath (this w) featureName category) w).
Proof. intros Hc. unfold loadFeature_call, bindM, getThis. now rewrite Hc. Qed.

Section LoadFeature.

Variable env : Env.

Lemma loadFeature_cached featureName category w cached :
  loadedFeatures (this w) !! featureName = Some cached ->
  loadFeature env featureName category w = (Ok cached, w).
Proof. intros Hc. unfold loadFeature, bindM, getThis. now rewrite Hc. Qed.

(** On a miss, the uninterrupted call is its first half followed at once
    by its second half on the answer of the byte source. *)
Lemma loadFeature_miss featureName category w :
  loadedFeatures (this w) !! featureName = None ->
  loadFeature env featureName category w
    = loadFeature_resume featureName
        (binaryFiles env (featurePath (this w) featureName category))
        (logged (featurePath (this w) featureName category) w).
Proof.
  intros Hc.
  unfold loadFeature, loadFeature_resume, bindM, getThis, tryCatch.
  rewrite Hc. unfold _fetchBinary, bindM, issueFetch, logged.
  destruct (binaryFiles env _); reflexivity.
Qed.

Lemma zeroFallback_loaded w bd :
  baseData (this w) = Some bd ->
  zeroFallback w
  = (Ok (length (heap w)),
     mkWorld (this w)
             (heap w ++ [replicate (length (cellIds bd)) f32_zero])
             (requests w)).
Proof.
  intros Hbd. unfold zeroFallback, bindM, getThis, lift, cellCount.
  now rewrite Hbd.
Qed.

(** The fallback never touches the loader or the request log. *)
Lemma zeroFallback_frame w r w' :
  zeroFallback w = (r, w') -> this w' = this w /\ requests w' = requests w.
Proof.
  unfold zeroFallback, bindM, getThis, lift, cellCount, allocFloat32Array.
  destruct (baseData (this w)); intros [= <- <-]; now split.
Qed.

Lemma loadFeature_resume_fails featureName response w :
  loadFails (this w) response ->
  loadFeature_resume featureName response w = zeroFallback w.
Proof.
  unfold loadFails, loadFeature_resume, tryCatch, bindM.
  destruct response as [buffer|]; [|reflexivity].
  intros [e He]. unfold ret, decodeAndCache, bindM, getThis, lift.
  now rewrite He.
Qed.

Lemma loadFeature_resume_decodes featureName buffer contents w :
  _parseFeatureBinary (this w) buffer = Ok contents ->
  loadFeature_resume featureName (Some buffer) w
  = (Ok (length (heap w)),
     mkWorld (mkLoader (basePath (this w)) (metadata (this w)) (baseData (this w))
                       (<[featureName := length (heap w)]> (loadedFeatures (this w))))
             (heap w ++ [contents]) (requests w)).
Proof.
  intros Hp.
  unfold loadFeature_resume, tryCatch, bindM, ret, decodeAndCache, bindM,
    getThis, lift.
  rewrite Hp. reflexivity.
Qed.

End LoadFeature.

(** ** Fallback on a failed fetch (C5) *)

(** C5: when the feature is not cached, the base dataset is loaded and the
    request for the feature's file fails, [loadFeature] returns normally,
    and what it returns is a fresh all-zero array with one entry per cell of
    the base dataset. *)
Theorem fetch_failure_gives_zero_vector env featureName category w bd :
  loadedFeatures (this w) !! featureName = None ->
  baseData (this w) = Some bd ->
  binaryFiles env (featurePath (this w) featureName category) = None ->
  exists r w',
    loadFeature env featureName category w = (Ok r, w') /\
    heap w' !! r = Some (replicate (length (cellIds bd)) f32_zero).
Proof.
  intros Hc Hbd Hf.
  rewrite (loadFeature_miss env featureName category w Hc).
  rewrite Hf, loadFeature_resume_fails by exact I.
  rewrite (zeroFallback_loaded _ bd) by exact Hbd.
  eexists _, _. split; [reflexivity|].
  simpl. now rewrite lookup_app_r, Nat.sub_diag.
Qed.

Lemma fetch_failure_gives_zero_vector_witness :
  exists r w',
    loadFeature sampleEnv "Y" "genes" sampleWorld = (Ok r, w') /\
    heap w' !! r = Some [0; 0].
Proof.
  exact (fetch_failure_gives_zero_vector sampleEnv "Y" "genes" sampleWorld
           (mkBaseData ["c0"; "c1"]%string
              [mkCoordinate 0x3f800000 0x40000000; mkCoordinate 0x40400000 0x40800000]
              ["s1"; "s2"]%string ["a"; "b"]%string
              [mkCell "c0" 0x3f800000 0x40000000 (Some "s1"%string) (Some "a"%string);
               mkCell "c1" 0x40400000 0x40800000 (Some "s2"%string) (Some "b"%string)])
           eq_refl eq_refl eq_refl).
Defined.

(** ** A failed load is not cached (C6) *)

(** C6: when a load fails (the request fails, or the decoder throws), the
    loader, and with it the cache, is left as it was, so the feature is
    still absent; the request was issued once, and the next [loadFeature]
    for the feature issues it again. *)
Theorem failed_load_not_cached env featureName category w :
  loadedFeatures (this w) !! featureName = None ->
  loadFails (this w) (binaryFiles env (featurePath (this w) featureName category)) ->
  let w' := snd (loadFeature env featureName category w) in
  let w'' := snd (loadFeature env featureName category w') in
  this w' = this w /\
  loadedFeatures (this w') !! featureName = None /\
  requests w' = requests w ++ [featurePath (this w) featureName category] /\
  requests w'' = requests w' ++ [featurePath (this w) featureName category].
Proof.
  intros Hc Hf.
  assert (Hstep : forall v, this v = this w ->
            this (snd (loadFeature env featureName category v)) = this w /\
            requests (snd (loadFeature env featureName category v))
            = requests v ++ [featurePath (this w) featureName category]).
  { intros v Hv.
    rewrite (loadFeature_miss env featureName category v) by now rewrite Hv.
    rewrite Hv.
    rewrite loadFeature_resume_fails by (unfold logged; simpl; now rewrite Hv).
    destruct (zeroFallback _) as [r v'] eqn:Hz.
    apply zeroFallback_frame in Hz as [Ht Hr]. simpl.
    rewrite Ht, Hr. unfold logged; simpl. now split. }
  intros w' w''.
  destruct (Hstep w eq_refl) as [Ht Hr].
  destruct (Hstep w' Ht) as [_ Hr'].
  fold w' in Ht, Hr. fold w'' in Hr'.
  repeat split; [exact Ht | now rewrite Ht | exact Hr | exact Hr'].
Qed.

Lemma failed_load_not_cached_witness :
  let w' := snd (loadFeature sampleEnv "Y" "genes" sampleWorld) in
  let w'' := snd (loadFeature sampleEnv "Y" "genes" w') in
  this w' = this sampleWorld /\
  loadedFeatures (this w') !! "Y"%string = None /\
  requests w' = requests sampleWorld ++ ["./data/binary/genes/Y.bin"%string] /\
  requests w'' = requests w' ++ ["./data/binary/genes/Y.bin"%string].
Proof.
  exact (failed_load_not_cached sampleEnv "Y" "genes" sampleWorld eq_refl I).
Defined.

(** The decoder side of C6: a truncated record makes the decoder throw, and
    such a load is not cached either. *)
Lemma truncated_record_fails t :
  loadFails t (Some [x02; x00; x00; x00;  x00; x00; x00; x00]).
Proof.
  simpl. unfold _parseFeatureBinary. simpl.
  destruct (cellCount t); simpl; eexists; reflexivity.
Qed.

(** ** The cache is keyed by the feature name (C10) *)

(** C10: once [loadFeature(n, c1)] has fetched, decoded and cached the
    vector of [n], a call [loadFeature(n, c2)] returns that same array
    object and leaves the world, request log included, as it was: nothing
    is requested under [c2], whatever [c2] is. *)
Theorem cache_keyed_by_name env featureName c1 c2 w buffer contents :
  loadedFeatures (this w) !! featureName = None ->
  binaryFiles env (featurePath (this w) featureName c1) = Some buffer ->
  _parseFeatureBinary (this w) buffer = Ok contents ->
  exists r w1,
    loadFeature env featureName c1 w = (Ok r, w1) /\
    heap w1 !! r = Some contents /\
    loadFeature env featureName c2 w1 = (Ok r, w1) /\
    requests (snd (loadFeature env featureName c2 w1)) = requests w1.
Proof.
  intros Hc Hf Hp.
  rewrite (loadFeature_miss env featureName c1 w Hc).
  rewrite Hf. rewrite (loadFeature_resume_decodes _ _ contents) by exact Hp.
  eexists _, _. split; [reflexivity|].
  assert (Hhit : forall v r, loadedFeatures (this v) !! featureName = Some r ->
                   loadFeature env featureName c2 v = (Ok r, v))
    by (intros; now apply loadFeature_cached).
  split; [|split].
  - simpl. now rewrite lookup_app_r, Nat.sub_diag.
  - apply Hhit. simpl. apply lookup_insert_eq.
  - rewrite (Hhit _ (length (heap w))); [reflexivity|].
    simpl. apply lookup_insert_eq.
Qed.

Lemma cache_keyed_by_name_witness :
  exists r w1,
    loadFeature sampleEnv "X" "genes" sampleWorld = (Ok r, w1) /\
    heap w1 !! r = Some [0; 0x3f800000] /\
    loadFeature sampleEnv "X" "tfs" w1 = (Ok r, w1) /\
    requests (snd (loadFeature sampleEnv "X" "tfs" w1)) = requests w1.
Proof.
  exact (cache_keyed_by_name sampleEnv "X" "genes" "tfs" sampleWorld
           geneXFile [0; 0x3f800000] eq_refl eq_refl eq_refl).
Defined.

(** ** What the caller receives from the cache (C4) *)

(** The world after [loadFeature("X", "genes")] on the sample deployment:
    the decoded vector of [X] is cached. *)
Lemma sample_load_X :
  fst (loadFeature sampleEnv "X" "genes" sampleWorld) = Ok 0%nat /\
  heap (snd (loadFeature sampleEnv "X" "genes" sampleWorld)) = [[0; 0x3f800000]] /\
  loadedFeatures (this (snd (loadFeature sampleEnv "X" "genes" sampleWorld)))
    !! "X"%string = Some 0%nat.
Proof. repeat split; reflexivity. Qed.

(** C4, counterexample: with [X] cached, a caller that stores into the array
    [loadFeature] gave it changes the vector the next [loadFeature] returns;
    so it is not true that a later load always returns what the cache held
    before the caller's store. *)
Lemma returned_array_is_not_a_copy :
  ~ (forall env featureName category w cached r w1 i v w2 r' w3,
        loadedFeatures (this w) !! featureName = Some cached ->
        loadFeature env featureName category w = (Ok r, w1) ->
        arraySet r i v w1 = (Ok tt, w2) ->
        loadFeature env featureName category w2 = (Ok r', w3) ->
        heap w3 !! r' = heap w !! cached).
Proof.
  intros H.
  pose (w := snd (loadFeature sampleEnv "X" "genes" sampleWorld)).
  specialize (H sampleEnv "X"%string "genes"%string w 0%nat 0%nat w 0%nat 0x40a00000
                (snd (arraySet 0%nat 0%nat 0x40a00000 w)) 0%nat
                (snd (arraySet 0%nat 0%nat 0x40a00000 w))).
  assert (Hc : loadedFeatures (this w) !! "X"%string = Some 0%nat) by reflexivity.
  specialize (H Hc (loadFeature_cached _ _ _ _ _ Hc) eq_refl
                (loadFeature_cached _ _ _ (snd (arraySet 0%nat 0%nat 0x40a00000 w)) _ Hc)).
  vm_compute in H. discriminate H.
Qed.

(** The caller's store reaches the cached object: amended C4.  For a feature
    resident in the cache, [loadFeature] returns the cached array object
    itself and changes nothing; after the caller stores [v] at an index
    inside that array, the next [loadFeature] returns the same object, which
    now holds [v] there. *)
Theorem cached_array_is_shared env featureName category w cached contents i v :
  loadedFeatures (this w) !! featureName = Some cached ->
  heap w !! cached = Some contents ->
  (i < length contents)%nat ->
  loadFeature env featureName category w = (Ok cached, w) /\
  let w2 := snd (arraySet cached i v w) in
  loadFeature env featureName category w2 = (Ok cached, w2) /\
  heap w2 !! cached = Some (<[i := v]> contents) /\
  arrayGet w2 cached i = Some v.
Proof.
  intros Hc Hh Hi. split; [now apply loadFeature_cached|].
  intros w2.
  assert (Hh2 : heap w2 !! cached = Some (<[i := v]> contents)).
  { unfold w2, arraySet. cbn [snd heap].
    rewrite list_lookup_alter_eq, Hh. reflexivity. }
  split; [now apply loadFeature_cached|]. split; [exact Hh2|].
  unfold arrayGet. rewrite Hh2. simpl. now apply list_lookup_insert_eq.
Qed.

Lemma cached_array_is_shared_witness :
  let w := snd (loadFeature sampleEnv "X" "genes" sampleWorld) in
  loadFeature sampleEnv "X" "tfs" w = (Ok 0%nat, w) /\
  let w2 := snd (arraySet 0%nat 0%nat 0x40a00000 w) in
  loadFeature sampleEnv "X" "tfs" w2 = (Ok 0%nat, w2) /\
  heap w2 !! 0%nat = Some [0x40a00000; 0x3f800000] /\
  arrayGet w2 0%nat 0%nat = Some 0x40a00000.
Proof.
  intros w.
  refine (cached_array_is_shared sampleEnv "X" "tfs" w 0%nat
            [0; 0x3f800000] 0%nat 0x40a00000 eq_refl eq_refl _).
  simpl. lia.
Defined.

(** ** [init()] in closed form *)

Section Init.

Variable env : Env.

Lemma fetch_then_parse {A} (parse : list byte -> Result A) url w :
  bindM (_fetchBinary env url) (fun buffer => lift (parse buffer)) w
  = (fetched env parse url, logged url w).
Proof.
  unfold bindM, _fetchBinary, bindM, issueFetch, lift, fetched, logged.
  destruct (binaryFiles env url); reflexivity.
Qed.

Lemma _loadBaseData_eq w :
  _loadBaseData env w
  = (baseDataOf env (basePath (this w)),
     mkWorld (this w) (heap w)
             (requests w ++ baseDataRequests (basePath (this w)))).
Proof.
  unfold _loadBaseData, bindM at 1, promiseAll4.
  unfold _loadCellIds, _loadCoordinates, _loadSections, _loadCellTypes,
    _loadStringArray.
  unfold bindM at 1, getThis. rewrite fetch_then_parse.
  unfold bindM at 1. rewrite fetch_then_parse.
  unfold bindM at 1. rewrite fetch_then_parse.
  unfold bindM at 1. rewrite fetch_then_parse.
  unfold baseDataOf, baseDataRequests, logged. cbn [this heap requests].
  rewrite <- !app_assoc. cbn [app].
  destruct (fetched env parseStringArray (basePath (this w) +:+ "/base/cell_ids.bin"));
    destruct (fetched env parseCoordinates _);
    destruct (fetched env parseStringArray (basePath (this w) +:+ "/base/sections.bin"));
    destruct (fetched env parseStringArray (basePath (this w) +:+ "/base/celltypes.bin"));
    reflexivity.
Qed.

(** [init()]: the descriptor is requested first; if that succeeds the
    metadata field is set and the four base files are requested; if they
    decode the base data field is set; the call then succeeds when both
    categories are present in the descriptor. *)
Lemma init_eq w :
  init env w
  = let t := this w in
    let url := basePath t +:+ "/metadata.json" in
    match jsonFiles env url with
    | None => (Throw FetchError, logged url w)
    | Some md =>
        let rq := requests w ++ url :: baseDataRequests (basePath t) in
        match baseDataOf env (basePath t) with
        | Throw e =>
            (Throw e,
             mkWorld (mkLoader (basePath t) (Some md) (baseData t) (loadedFeatures t))
                     (heap w) rq)
        | Ok bd =>
            (match genes md, tfs md with
             | Some _, Some _ => Ok true
             | _, _ => Throw TypeError
             end,
             mkWorld (mkLoader (basePath t) (Some md) (Some bd) (loadedFeatures t))
                     (heap w) rq)
        end
    end.
Proof.
  unfold init, bindM at 1, getThis. unfold bindM at 1.
  unfold _loadJSON, bindM at 1, issueFetch.
  destruct (jsonFiles env (basePath (this w) +:+ "/metadata.json")) as [md|];
    [|reflexivity].
  cbn [ret]. unfold bindM at 1, setMetadata. unfold bindM at 1.
  rewrite _loadBaseData_eq. cbn [this heap requests basePath].
  rewrite <- app_assoc. cbn [app].
  destruct (baseDataOf env (basePath (this w))) as [bd|e]; [|reflexivity].
  unfold bindM, setBaseData, lift, ret. cbn.
  destruct (genes md), (tfs md); reflexivity.
Qed.

End Init.

(** ** The cell sequence *)

Lemma buildCells_spec ids : forall i coords secs types acc cells,
  buildCells ids i coords secs types acc = Ok cells ->
  length cells = (length acc + length ids)%nat /\
  forall k cid, ids !! k = Some cid ->
    exists cell, cells !! (length acc + k)%nat = Some cell /\ id cell = cid.
Proof.
  induction ids as [|cid0 ids IH]; intros i coords secs types acc cells; simpl.
  - intros [= <-]. split; [lia|]. intros k cid Hk. discriminate Hk.
  - destruct (coords !! i) as [c|]; [|discriminate].
    intros Hb. pose proof (IH _ _ _ _ _ _ Hb) as [Hlen Hids].
    rewrite length_app in Hlen. simpl in Hlen. split; [lia|].
    intros [|k] cid Hk; simpl in Hk.
    + injection Hk as <-.
      assert (Hpre : forall ids' j acc' cells',
                buildCells ids' j coords secs types acc' = Ok cells' ->
                forall n c0, acc' !! n = Some c0 -> cells' !! n = Some c0).
      { clear. induction ids' as [|? ids' IH']; intros j acc' cells'; simpl.
        - now intros [= <-].
        - destruct (coords !! j); [|discriminate].
          intros Hb n c0 Hn. eapply IH'; [exact Hb|].
          now apply lookup_app_l_Some. }
      eexists. split.
      { eapply Hpre; [exact Hb|].
        rewrite Nat.add_0_r, lookup_app_r, Nat.sub_diag by lia. reflexivity. }
      reflexivity.
    + destruct (Hids k cid Hk) as (cell & Hc & Hid).
      exists cell. split; [|exact Hid].
      rewrite length_app in Hc. simpl in Hc.
      now replace (length acc + S k)%nat with (length acc + 1 + k)%nat by lia.
Qed.

(** The cell sequence has one cell per identifier, in the identifiers'
    order. *)
Lemma assembleBaseData_cells ids coords secs types bd :
  assembleBaseData ids coords secs types = Ok bd ->
  cellIds bd = ids /\
  length (baseDataCells bd) = length (cellIds bd) /\
  forall k cid, cellIds bd !! k = Some cid ->
    exists cell, baseDataCells bd !! k = Some cell /\ id cell = cid.
Proof.
  unfold assembleBaseData.
  destruct (buildCells ids 0 coords secs types []) as [cells|e] eqn:Hb; simpl;
    [|discriminate].
  intros [= <-]. simpl.
  destruct (buildCells_spec _ _ _ _ _ _ _ Hb) as [Hlen Hids].
  repeat split; [exact Hlen | exact Hids].
Qed.

Lemma baseDataOf_cells env base bd :
  baseDataOf env base = Ok bd ->
  length (baseDataCells bd) = length (cellIds bd) /\
  forall k cid, cellIds bd !! k = Some cid ->
    exists cell, baseDataCells bd !! k = Some cell /\ id cell = cid.
Proof.
  unfold baseDataOf.
  destruct (fetched env parseStringArray (base +:+ "/base/cell_ids.bin")); simpl; [|discriminate].
  destruct (fetched env parseCoordinates _); simpl; [|discriminate].
  destruct (fetched env parseStringArray (base +:+ "/base/sections.bin")); simpl; [|discriminate].
  destruct (fetched env parseStringArray (base +:+ "/base/celltypes.bin")); simpl; [|discriminate].
  intros H. now apply assembleBaseData_cells in H as (_ & ? & ?).
Qed.

(** ** [getBaseData] before and after [init] (C7) *)

(** On the deployment whose descriptor lacks a category, [init()] throws
    after it has stored the base data. *)
Lemma partial_init :
  fst (init partialEnv newWorld) = Throw TypeError /\
  getBaseData (this (snd (init partialEnv newWorld)))
  = Ok [mkCell "c0" 0x3f800000 0x40000000 (Some "s1"%string) (Some "a"%string);
        mkCell "c1" 0x40400000 0x40800000 (Some "s2"%string) (Some "b"%string)].
Proof. split; reflexivity. Qed.

(** C7, counterexample: it is not the case that [getBaseData()] fails in
    every world in which no [init()] has succeeded. *)
Lemma getBaseData_before_init_may_succeed :
  ~ (forall env w, neverInitialized env w ->
                   exists e, getBaseData (this w) = Throw e).
Proof.
  intros H.
  destruct (H partialEnv (snd (init partialEnv newWorld))) as [e He].
  - eapply ni_init; [apply ni_new|].
    instantiate (1 := TypeError). reflexivity.
  - discriminate He.
Qed.

(** C7, amended: while the loader's base data field is [null], as on a new
    loader, [getBaseData()] throws (a [TypeError]; there is no separate
    not-initialised error); it still throws after an [init()] that failed
    because the descriptor or a base file could not be fetched or decoded;
    and after an [init()] that succeeded it returns the cell sequence, one
    cell per identifier, in order. *)
Theorem getBaseData_needs_base_data env w r w' :
  baseData (this w) = None ->
  init env w = (r, w') ->
  getBaseData (this w) = Throw TypeError /\
  match r with
  | Ok _ =>
      exists bd,
        baseDataOf env (basePath (this w)) = Ok bd /\
        getBaseData (this w') = Ok (baseDataCells bd) /\
        length (baseDataCells bd) = length (cellIds bd) /\
        forall k cid, cellIds bd !! k = Some cid ->
          exists cell, baseDataCells bd !! k = Some cell /\ id cell = cid
  | Throw _ =>
      jsonFiles env (basePath (this w) +:+ "/metadata.json") = None \/
      is_ok (baseDataOf env (basePath (this w))) = false ->
      getBaseData (this w') = Throw TypeError
  end.
Proof.
  intros Hnull Hinit. split; [unfold getBaseData; now rewrite Hnull|].
  rewrite init_eq in Hinit. cbn zeta in Hinit.
  destruct (jsonFiles env (basePath (this w) +:+ "/metadata.json")) as [md|].
  - destruct (baseDataOf env (basePath (this w))) as [bd|e] eqn:Hbd.
    + injection Hinit as <- <-.
      destruct (genes md), (tfs md);
        try (intros [Hj|Hb]; discriminate).
      exists bd. split; [reflexivity|]. split; [reflexivity|].
      eapply baseDataOf_cells, Hbd.
    + injection Hinit as <- <-. intros _.
      unfold getBaseData; simpl. now rewrite Hnull.
  - injection Hinit as <- <-. intros _.
    unfold getBaseData, logged; simpl. now rewrite Hnull.
Qed.

Lemma getBaseData_needs_base_data_witness :
  getBaseData (this newWorld) = Throw TypeError /\
  exists bd,
    baseDataOf sampleEnv "./data/binary" = Ok bd /\
    getBaseData (this sampleWorld) = Ok (baseDataCells bd) /\
    length (baseDataCells bd) = length (cellIds bd) /\
    forall k cid, cellIds bd !! k = Some cid ->
      exists cell, baseDataCells bd !! k = Some cell /\ id cell = cid.
Proof.
  exact (getBaseData_needs_base_data sampleEnv newWorld (Ok true) sampleWorld
           eq_refl eq_refl).
Defined.

(** The module-level accessor never fails: before any initialisation it
    returns the empty default. *)
Lemma Constants_getBaseData_default : Constants_getBaseData newConstants = [].
Proof. reflexivity. Qed.

(** ** [initializeData] is idempotent (C3) *)

Lemma initializeData_sets_flag env s b s1 :
  initializeData env s = (Ok b, s1) -> isInitialized s1 = true.
Proof.
  unfold initializeData.
  destruct (isInitialized s) eqn:Hflag.
  - now intros [= _ <-].
  - destruct (init env (binaryDataLoader s)) as [[b0|e] w'].
    + destruct (getBaseData (this w')) as [cells|e1];
        destruct (getAllFeatures (this w')) as [fs|e2];
        intros [= _ <-] || discriminate; reflexivity.
    + discriminate.
Qed.

(** C3: after a call of [initializeData()] that succeeded, a second call
    returns [true] at once and leaves every module variable as it was: the
    request log does not grow (no descriptor or base file is fetched or
    decoded again) and [BASE_DATA], the value [getBaseData()] of the module
    returns, is the same. *)
Theorem initializeData_idempotent env s b s1 :
  initializeData env s = (Ok b, s1) ->
  initializeData env s1 = (Ok true, s1) /\
  requests (binaryDataLoader (snd (initializeData env s1)))
  = requests (binaryDataLoader s1) /\
  BASE_DATA (snd (initializeData env s1)) = BASE_DATA s1.
Proof.
  intros H1. apply initializeData_sets_flag in H1.
  assert (H2 : initializeData env s1 = (Ok true, s1))
    by (unfold initializeData; now rewrite H1).
  rewrite H2. repeat split; reflexivity.
Qed.

Lemma initializeData_idempotent_witness :
  let s1 := snd (initializeData sampleEnv newConstants) in
  initializeData sampleEnv s1 = (Ok true, s1) /\
  requests (binaryDataLoader (snd (initializeData sampleEnv s1)))
  = requests (binaryDataLoader s1) /\
  BASE_DATA (snd (initializeData sampleEnv s1)) = BASE_DATA s1.
Proof.
  exact (initializeData_idempotent sampleEnv newConstants true
           (snd (initializeData sampleEnv newConstants)) eq_refl).
Defined.

(** The first call on the sample deployment issues the five requests and
    fills [BASE_DATA] with the two cells. *)
Lemma initializeData_sample :
  let s1 := snd (initializeData sampleEnv newConstants) in
  length (requests (binaryDataLoader s1)) = 5%nat /\
  map id (BASE_DATA s1) = ["c0"; "c1"]%string.
Proof. split; reflexivity. Qed.

(** The loader's own [init()] has no such guard: called again, it requests
    the descriptor and the four base files again. *)
Lemma init_again_refetches :
  length (requests (snd (init sampleEnv sampleWorld))) = 10%nat.
Proof. reflexivity. Qed.

(** ** Alignment of feature vectors with the cell sequence (C8) *)

Section Alignment.

Variable env : Env.

Lemma decodes_same_base t t' bd featureName vec :
  basePath t' = basePath t ->
  decodes env t bd featureName vec -> decodes env t' bd featureName vec.
Proof.
  intros Hb (c & buffer & pairs & Hf & Hrest).
  exists c, buffer, pairs. split; [|exact Hrest].
  unfold featurePath in *. now rewrite Hb.
Qed.

(** What a successful decode caches satisfies [decodes]. *)
Lemma parsed_decodes t bd featureName category buffer contents :
  baseData t = Some bd ->
  binaryFiles env (featurePath t featureName category) = Some buffer ->
  _parseFeatureBinary t buffer = Ok contents ->
  decodes env t bd featureName contents.
Proof.
  intros Hbd Hf Hp.
  rewrite (_parseFeatureBinary_pairs _ _ _ Hbd) in Hp.
  destruct (recordPairs buffer) as [pairs|e] eqn:Hr; simpl in Hp; [|discriminate].
  destruct (decoded_entries t bd buffer pairs Hbd Hr) as (arr & Harr & Hlen & Hent).
  rewrite (_parseFeatureBinary_pairs _ _ _ Hbd), Hr in Harr. simpl in Harr.
  assert (arr = contents) as -> by congruence.
  exists category, buffer, pairs. auto.
Qed.

Lemma cacheAligned_new : cacheAligned env newWorld.
Proof.
  split; [reflexivity|]. split.
  - intros bd Hbd. discriminate Hbd.
  - intros n r Hn. simpl in Hn. now rewrite lookup_empty in Hn.
Qed.

Lemma cacheAligned_init w : cacheAligned env w -> cacheAligned env (snd (init env w)).
Proof.
  intros (Hbase & Hbd & Hcache). rewrite init_eq. cbn zeta.
  destruct (jsonFiles env _) as [md|]; [|exact (conj Hbase (conj Hbd Hcache))].
  destruct (baseDataOf env (basePath (this w))) as [bd|e] eqn:Hof; simpl.
  - split; [exact Hbase|]. split.
    + intros bd' [= <-]. exact Hof.
    + intros n r Hn. destruct (Hcache n r Hn) as (bd0 & vec & Hb0 & Hh & Hd).
      assert (bd0 = bd) as -> by (specialize (Hbd _ Hb0); congruence).
      exists bd, vec. repeat split; [exact Hh|].
      eapply decodes_same_base; [|exact Hd]. reflexivity.
  - split; [exact Hbase|]. split.
    + intros bd' Hb'. simpl in Hb'. specialize (Hbd _ Hb'). discriminate Hbd.
    + intros n r Hn. destruct (Hcache n r Hn) as (bd0 & vec & Hb0 & Hh & Hd).
      exists bd0, vec. repeat split; [exact Hb0 | exact Hh |].
      eapply decodes_same_base; [|exact Hd]. reflexivity.
Qed.

(** Allocation keeps the arrays that exist. *)
Lemma cacheAligned_grow t h rq extra rq' :
  cacheAligned env (mkWorld t h rq) -> cacheAligned env (mkWorld t (h ++ extra) rq').
Proof.
  intros (Hbase & Hbd & Hcache). split; [exact Hbase|]. split; [exact Hbd|].
  intros n r Hn. destruct (Hcache n r Hn) as (bd & vec & Hb & Hh & Hd).
  exists bd, vec. repeat split; [exact Hb | | exact Hd].
  simpl in *. now apply lookup_app_l_Some.
Qed.

Lemma cacheAligned_loadFeature featureName category w :
  cacheAligned env w ->
  cacheAligned env (snd (loadFeature env featureName category w)).
Proof.
  intros Hinv.
  destruct (loadedFeatures (this w) !! featureName) as [cached|] eqn:Hc.
  { now rewrite (loadFeature_cached _ _ _ _ _ Hc). }
  rewrite (loadFeature_miss env featureName category w Hc).
  set (url := featurePath (this w) featureName category).
  assert (Hlog : cacheAligned env (logged url w)).
  { destruct w as [t h rq]. unfold logged; simpl.
    rewrite <- (app_nil_r h). now apply cacheAligned_grow with (rq := rq). }
  assert (Hfb : cacheAligned env (snd (zeroFallback (logged url w)))).
  { unfold zeroFallback, bindM, getThis, lift, cellCount, allocFloat32Array.
    destruct (baseData (this (logged url w))); simpl; [|exact Hlog].
    destruct w as [t h rq]. eapply cacheAligned_grow. exact Hinv. }
  destruct (binaryFiles env url) as [buffer|] eqn:Hf;
    [|now rewrite loadFeature_resume_fails by exact I].
  destruct (_parseFeatureBinary (this w) buffer) as [contents|e] eqn:Hp;
    [|now rewrite loadFeature_resume_fails by (simpl; eauto)].
  rewrite (loadFeature_resume_decodes _ _ contents) by exact Hp. simpl.
  destruct Hinv as (Hbase & Hbd & Hcache).
  assert (Hsome : exists bd, baseData (this w) = Some bd).
  { unfold _parseFeatureBinary, cellCount in Hp.
    destruct (DataView.getUint32 buffer 0); simpl in Hp; [|discriminate].
    destruct (baseData (this w)) as [bd|]; [eauto | discriminate]. }
  destruct Hsome as [bd Hb].
  split; [exact Hbase|]. split; [exact Hbd|].
  intros n r Hn. simpl in Hn. exists bd.
  destruct (decide (featureName = n)) as [<-|Hne].
  - rewrite lookup_insert_eq in Hn. injection Hn as <-.
    exists contents. split; [exact Hb|]. split.
    + simpl. now rewrite lookup_app_r, Nat.sub_diag.
    + eapply decodes_same_base; [|eapply parsed_decodes; eassumption]. reflexivity.
  - rewrite lookup_insert_ne in Hn by exact Hne.
    destruct (Hcache n r Hn) as (bd0 & vec & Hb0 & Hh & Hd).
    assert (bd0 = bd) as -> by congruence.
    exists vec. split; [exact Hb|]. split.
    + simpl. now apply lookup_app_l_Some.
    + eapply decodes_same_base; [|exact Hd]. reflexivity.
Qed.

Lemma cacheAligned_clearCache w :
  cacheAligned env w -> cacheAligned env (snd (clearCache w)).
Proof.
  intros (Hbase & Hbd & _). split; [exact Hbase|]. split; [exact Hbd|].
  intros n r Hn. simpl in Hn. now rewrite lookup_empty in Hn.
Qed.

Lemma reachable_cacheAligned w : reachable env w -> cacheAligned env w.
Proof.
  unfold reachable. revert w.
  apply (rtc_ind_r (cacheAligned env) newWorld).
  - apply cacheAligned_new.
  - intros v v' _ Hstep IH. destruct Hstep.
    + now apply cacheAligned_init.
    + now apply cacheAligned_loadFeature.
    + now apply cacheAligned_clearCache.
Qed.

End Alignment.

(** *** The origin of the cached arrays *)

Lemma recordOf_base env t t' featureName category :
  basePath t' = basePath t ->
  recordOf env t' featureName category = recordOf env t featureName category.
Proof. intros H. unfold recordOf, featurePath. now rewrite H. Qed.

Lemma originAligned_grow env t h rq extra rq' origin :
  originAligned env (mkWorld t h rq) origin ->
  originAligned env (mkWorld t (h ++ extra) rq') origin.
Proof.
  intros H n r Hn. destruct (H n r Hn) as (c & vec & pairs & Ho & Hh & Hr & Hent).
  exists c, vec, pairs. repeat split; [exact Ho | | exact Hr | exact Hent].
  simpl in *. now apply lookup_app_l_Some.
Qed.

(** A successful decode, entry by entry. *)
Lemma parsed_entries t buffer contents :
  _parseFeatureBinary t buffer = Ok contents ->
  exists pairs,
    recordPairs buffer = Ok pairs /\
    forall i, (i < length contents)%nat ->
              contents !! i = Some (recordedValue pairs i).
Proof.
  intros Hp.
  assert (Hsome : exists bd, baseData t = Some bd).
  { unfold _parseFeatureBinary, cellCount in Hp.
    destruct (DataView.getUint32 buffer 0); simpl in Hp; [|discriminate].
    destruct (baseData t) as [bd|]; [eauto | discriminate]. }
  destruct Hsome as [bd Hbd].
  pose proof Hp as Hp'. rewrite (_parseFeatureBinary_pairs _ _ _ Hbd) in Hp'.
  destruct (recordPairs buffer) as [pairs|e] eqn:Hr; simpl in Hp'; [|discriminate].
  destruct (decoded_entries t bd buffer pairs Hbd Hr) as (arr & Harr & Hlen & Hent).
  assert (arr = contents) as -> by congruence.
  exists pairs. split; [reflexivity|]. intros i Hi. apply Hent. lia.
Qed.

(** A load that fails to decode has no record to show. *)
Lemma failed_load_no_record env t bd featureName category :
  baseData t = Some bd ->
  loadFails t (binaryFiles env (featurePath t featureName category)) ->
  recordOf env t featureName category = None.
Proof.
  intros Hbd. unfold loadFails, recordOf.
  destruct (binaryFiles env _) as [buffer|]; [|reflexivity].
  intros [e He]. rewrite (_parseFeatureBinary_pairs _ _ _ Hbd) in He.
  destruct (recordPairs buffer); [discriminate | reflexivity].
Qed.

Lemma originAligned_loadFeature env featureName category w origin :
  originAligned env w origin ->
  originAligned env (snd (loadFeature env featureName category w))
    (originAfter w (snd (loadFeature env featureName category w))
                 origin featureName category).
Proof.
  intros Hinv. unfold originAfter.
  destruct (loadedFeatures (this w) !! featureName) as [cached|] eqn:Hc.
  { now rewrite (loadFeature_cached _ _ _ _ _ Hc). }
  rewrite (loadFeature_miss env _ _ _ Hc).
  set (url := featurePath (this w) featureName category).
  assert (Hlog : originAligned env (logged url w) origin).
  { destruct w as [t h rq]. unfold logged; simpl.
    rewrite <- (app_nil_r h). now apply originAligned_grow with (rq := rq). }
  assert (Hfb : forall r v,
            zeroFallback (logged url w) = (r, v) ->
            loadedFeatures (this v) !! featureName = None /\
            originAligned env v origin).
  { intros r v. unfold zeroFallback, bindM, getThis, lift, cellCount,
      allocFloat32Array.
    destruct (baseData (this (logged url w))); simpl; intros [= <- <-]; simpl.
    - split; [exact Hc|]. destruct w as [t h rq]. eapply originAligned_grow.
      exact Hinv.
    - split; [exact Hc | exact Hlog]. }
  assert (Hfail : loadFails (this (logged url w)) (binaryFiles env url) ->
            originAligned env
              (snd (loadFeature_resume featureName (binaryFiles env url) (logged url w)))
              match loadedFeatures
                      (this (snd (loadFeature_resume featureName (binaryFiles env url)
                                                     (logged url w)))) !! featureName with
              | Some _ => <[featureName := category]> origin
              | None => origin
              end).
  { intros Hf. rewrite loadFeature_resume_fails by exact Hf.
    destruct (zeroFallback (logged url w)) as [r v].
    destruct (Hfb r v eq_refl) as [Hn Hv]. cbn [snd]. now rewrite Hn. }
  destruct (binaryFiles env url) as [buffer|] eqn:Hf; [|now apply Hfail].
  destruct (_parseFeatureBinary (this w) buffer) as [contents|e] eqn:Hp;
    [|apply Hfail; simpl; eauto].
  rewrite (loadFeature_resume_decodes _ _ contents) by exact Hp.
  cbn [snd this loadedFeatures]. rewrite lookup_insert_eq.
  destruct (parsed_entries _ _ _ Hp) as (pairs & Hr & Hent).
  intros n r Hn. cbn [this loadedFeatures heap logged] in *.
  destruct (decide (featureName = n)) as [<-|Hne].
  - rewrite lookup_insert_eq in Hn. injection Hn as <-.
    exists category, contents, pairs. repeat split.
    + apply lookup_insert_eq.
    + now rewrite lookup_app_r, Nat.sub_diag.
    + unfold recordOf, featurePath. cbn [basePath].
      fold (featurePath (this w) featureName category). fold url.
      now rewrite Hf, Hr.
    + exact Hent.
  - rewrite lookup_insert_ne in Hn by exact Hne.
    destruct (Hinv n r Hn) as (c & vec & ps & Ho & Hh & Hrec & Hv).
    exists c, vec, ps. repeat split.
    + now rewrite lookup_insert_ne.
    + now apply lookup_app_l_Some.
    + exact Hrec.
    + exact Hv.
Qed.

Lemma originAligned_init env w origin :
  originAligned env w origin -> originAligned env (snd (init env w)) origin.
Proof.
  intros Hinv.
  assert (H : basePath (this (snd (init env w))) = basePath (this w) /\
              loadedFeatures (this (snd (init env w))) = loadedFeatures (this w) /\
              heap (snd (init env w)) = heap w).
  { rewrite init_eq. cbn zeta.
    destruct (jsonFiles env _); [|now repeat split].
    destruct (baseDataOf env _); now repeat split. }
  destruct H as (Hb & Hl & Hh). intros n r Hn. rewrite Hl in Hn.
  destruct (Hinv n r Hn) as (c & vec & pairs & Ho & Hheap & Hrec & Hv).
  exists c, vec, pairs. repeat split; [exact Ho | now rewrite Hh | | exact Hv].
  now rewrite (recordOf_base env (this w)).
Qed.

Lemma history_aligned env w origin :
  history env w origin -> cacheAligned env w /\ originAligned env w origin.
Proof.
  induction 1 as [|w o _ [IHc IHo]|w o n c _ [IHc IHo]|w o _ [IHc IHo]].
  - split; [apply cacheAligned_new|]. intros n r Hn. simpl in Hn.
    now rewrite lookup_empty in Hn.
  - split; [now apply cacheAligned_init | now apply originAligned_init].
  - split; [now apply cacheAligned_loadFeature | now apply originAligned_loadFeature].
  - split; [now apply cacheAligned_clearCache|]. intros n r Hn. simpl in Hn.
    now rewrite lookup_empty in Hn.
Qed.

(** A history is a run of loader operations. *)
Lemma history_reachable env w origin : history env w origin -> reachable env w.
Proof.
  unfold reachable. induction 1.
  - apply rtc_refl.
  - eapply rtc_r; [eassumption | apply step_init].
  - eapply rtc_r; [eassumption | apply step_loadFeature].
  - eapply rtc_r; [eassumption | apply step_clearCache].
Qed.

(** C8: in every world the loader can reach, a [loadFeature] that returns
    gives an array with exactly one entry per cell of [getBaseData()], and
    entry [i] is the value recorded for cell [i] (a NaN for a recorded
    NaN) by the feature's file: the file of the requested category when the
    call misses the cache, the file of the category the feature was loaded
    under when the call is served from the cache (which is keyed by the
    name alone).  Exactly when that file is missing or cut short is the
    array the all-zero fallback. *)
Theorem feature_vector_aligned env w origin featureName category r w' :
  history env w origin ->
  loadFeature env featureName category w = (Ok r, w') ->
  exists cells vec source,
    getBaseData (this w') = Ok cells /\
    heap w' !! r = Some vec /\
    length vec = length cells /\
    match loadedFeatures (this w) !! featureName with
    | Some _ => origin !! featureName
    | None => Some category
    end = Some source /\
    match recordOf env (this w) featureName source with
    | Some pairs =>
        forall i cell, cells !! i = Some cell ->
          exists v, vec !! i = Some v /\ sameFloat32 v (recordedValue pairs i)
    | None => vec = replicate (length cells) f32_zero
    end.
Proof.
  intros Hhist Hload.
  destruct (history_aligned env w origin Hhist) as [Hc Ho].
  assert (Hc' : cacheAligned env w').
  { replace w' with (snd (loadFeature env featureName category w))
      by now rewrite Hload.
    now apply cacheAligned_loadFeature. }
  destruct Hc' as (_ & Hbd' & Hcache').
  assert (Hcells : forall bd, baseData (this w') = Some bd ->
            getBaseData (this w') = Ok (baseDataCells bd) /\
            length (baseDataCells bd) = length (cellIds bd)).
  { intros bd Hb. split; [unfold getBaseData; now rewrite Hb|].
    eapply baseDataOf_cells, Hbd', Hb. }
  destruct (loadedFeatures (this w) !! featureName) as [cached|] eqn:Hhit.
  - (* served from the cache *)
    rewrite (loadFeature_cached _ _ _ _ _ Hhit) in Hload.
    injection Hload as <- <-.
    destruct (Ho _ _ Hhit) as (c & vec & pairs & Hor & Hh & Hrec & Hent).
    destruct (Hcache' _ _ Hhit) as (bd & vec' & Hb & Hh' & _ & _ & _ & _ & _ & Hlen & _).
    assert (vec' = vec) as -> by congruence.
    destruct (Hcells bd Hb) as [Hg Hl].
    exists (baseDataCells bd), vec, c.
    repeat split; [exact Hg | exact Hh | lia | exact Hor |].
    rewrite Hrec. intros i cell Hi. eexists.
    split; [apply Hent | apply sameFloat32_refl].
    apply lookup_lt_Some in Hi. lia.
  - (* a miss: the file of the requested category *)
    rewrite (loadFeature_miss env _ _ _ Hhit) in Hload.
    set (url := featurePath (this w) featureName category) in *.
    destruct (baseData (this w)) as [bd|] eqn:Hb.
    2:{ exfalso.
        assert (Hf : loadFails (this (logged url w)) (binaryFiles env url)).
        { destruct (binaryFiles env url) as [buffer|]; simpl; [|exact I].
          unfold _parseFeatureBinary, cellCount. rewrite Hb.
          destruct (DataView.getUint32 buffer 0); simpl; eauto. }
        rewrite loadFeature_resume_fails in Hload by exact Hf.
        unfold zeroFallback, bindM, getThis, lift, cellCount in Hload.
        cbn [this logged] in Hload. rewrite Hb in Hload. discriminate Hload. }
    destruct (binaryFiles env url) as [buffer|] eqn:Hf.
    + destruct (_parseFeatureBinary (this w) buffer) as [contents|e] eqn:Hp.
      * rewrite (loadFeature_resume_decodes _ _ contents) in Hload by exact Hp.
        injection Hload as <- <-. cbn [this heap logged baseData] in *.
        destruct (Hcells bd Hb) as [Hg Hl].
        destruct (parsed_entries _ _ _ Hp) as (pairs & Hr & Hent).
        assert (Hlen : length contents = length (cellIds bd)).
        { rewrite (_parseFeatureBinary_pairs _ _ _ Hb), Hr in Hp. simpl in Hp.
          injection Hp as <-. now rewrite foldl_storePair_length, length_replicate. }
        exists (baseDataCells bd), contents, category.
        repeat split; [exact Hg | now rewrite lookup_app_r, Nat.sub_diag | lia |].
        unfold recordOf. fold url. rewrite Hf, Hr.
        intros i cell Hi. eexists.
        split; [apply Hent | apply sameFloat32_refl].
        apply lookup_lt_Some in Hi. lia.
      * rewrite loadFeature_resume_fails in Hload by (simpl; eauto).
        rewrite (zeroFallback_loaded _ bd) in Hload by exact Hb.
        injection Hload as <- <-. cbn [this heap logged baseData] in *.
        destruct (Hcells bd Hb) as [Hg Hl].
        exists (baseDataCells bd), (replicate (length (cellIds bd)) f32_zero), category.
        repeat split; [exact Hg | now rewrite lookup_app_r, Nat.sub_diag
                      | rewrite length_replicate; lia |].
        rewrite (failed_load_no_record env (this w) bd) by (try exact Hb; fold url; rewrite Hf; simpl; eauto).
        now rewrite Hl.
    + rewrite loadFeature_resume_fails in Hload by exact I.
      rewrite (zeroFallback_loaded _ bd) in Hload by exact Hb.
      injection Hload as <- <-. cbn [this heap logged baseData] in *.
      destruct (Hcells bd Hb) as [Hg Hl].
      exists (baseDataCells bd), (replicate (length (cellIds bd)) f32_zero), category.
      repeat split; [exact Hg | now rewrite lookup_app_r, Nat.sub_diag
                    | rewrite length_replicate; lia |].
      unfold recordOf. fold url. rewrite Hf. now rewrite Hl.
Qed.

Lemma feature_vector_aligned_witness :
  let w := snd (loadFeature sampleEnv "X" "genes" sampleWorld) in
  exists cells vec source,
    getBaseData (this w) = Ok cells /\
    heap w !! 0%nat = Some vec /\
    length vec = length cells /\
    match loadedFeatures (this sampleWorld) !! "X"%string with
    | Some _ => (∅ : gmap string string) !! "X"%string
    | None => Some "genes"%string
    end = Some source /\
    match recordOf sampleEnv (this sampleWorld) "X" source with
    | Some pairs =>
        forall i cell, cells !! i = Some cell ->
          exists v, vec !! i = Some v /\ sameFloat32 v (recordedValue pairs i)
    | None => vec = replicate (length cells) f32_zero
    end.
Proof.
  intros w.
  refine (feature_vector_aligned sampleEnv sampleWorld ∅ "X" "genes" 0%nat w _ eq_refl).
  exact (history_init sampleEnv newWorld ∅ (history_new sampleEnv)).
Defined.

(** ** Concurrent requests for one feature (C1) *)

Lemma callMany_requests n featureName category : forall w,
  loadedFeatures (this w) !! featureName = None ->
  callMany n featureName category w
  = (Ok (replicate n (Awaiting (featurePath (this w) featureName category))),
     mkWorld (this w) (heap w)
             (requests w ++ replicate n (featurePath (this w) featureName category))).
Proof.
  unfold callMany.
  induction n as [|n IH]; intros w Hc; cbn [replicate callEach].
  - unfold ret. rewrite app_nil_r. now destruct w.
  - unfold bindM at 1.
    rewrite (loadFeature_call_miss featureName category w Hc).
    unfold bindM at 1. rewrite IH by exact Hc.
    unfold logged, ret. cbn [this heap requests].
    now rewrite <- app_assoc.
Qed.

(** C1, what the code does: while the feature is not cached, each of [n]
    calls of [loadFeature] made before any request is answered finds the
    cache empty and issues its own request for the feature's file; the log
    gains [n] requests, not one. *)
Theorem concurrent_calls_each_fetch n featureName category w :
  loadedFeatures (this w) !! featureName = None ->
  let url := featurePath (this w) featureName category in
  fst (callMany n featureName category w) = Ok (replicate n (Awaiting url)) /\
  requests (snd (callMany n featureName category w))
  = requests w ++ replicate n url.
Proof.
  intros Hc url. now rewrite callMany_requests by exact Hc.
Qed.

Lemma concurrent_calls_each_fetch_witness :
  fst (callMany 2 "X" "genes" sampleWorld)
  = Ok [Awaiting "./data/binary/genes/X.bin"; Awaiting "./data/binary/genes/X.bin"] /\
  requests (snd (callMany 2 "X" "genes" sampleWorld))
  = requests sampleWorld
    ++ ["./data/binary/genes/X.bin"; "./data/binary/genes/X.bin"]%string.
Proof.
  exact (concurrent_calls_each_fetch 2 "X" "genes" sampleWorld eq_refl).
Defined.

(** When the two requests are answered, each call decodes its own copy:
    the callers receive two different array objects with equal contents,
    and the cache keeps the one decoded last. *)
Lemma two_concurrent_loads_resolve :
  let w2 := snd (callMany 2 "X" "genes" sampleWorld) in
  let '(r1, w3) := loadFeature_resume "X" (binaryFiles sampleEnv "./data/binary/genes/X.bin") w2 in
  let '(r2, w4) := loadFeature_resume "X" (binaryFiles sampleEnv "./data/binary/genes/X.bin") w3 in
  r1 = Ok 0%nat /\ r2 = Ok 1%nat /\
  heap w4 = [[0; 0x3f800000]; [0; 0x3f800000]] /\
  loadedFeatures (this w4) !! "X"%string = Some 1%nat.
Proof. vm_compute. repeat split; reflexivity. Qed.

(** The same through the loader's own batch call:
    [loadMultipleFeatures(["X", "X"], "genes")] requests [genes/X.bin]
    twice and decodes it twice. *)
Lemma loadMultipleFeatures_repeated_name :
  let '(r, w) := loadMultipleFeatures sampleEnv ["X"; "X"]%string "genes" sampleWorld in
  (exists combined, r = Ok combined /\ combined !! "X"%string = Some 1%nat) /\
  requests w
  = requests sampleWorld
    ++ ["./data/binary/genes/X.bin"; "./data/binary/genes/X.bin"]%string /\
  heap w = [[0; 0x3f800000]; [0; 0x3f800000]].
Proof.
  destruct (loadMultipleFeatures _ _ _ _) as [r w] eqn:H.
  vm_compute in H. injection H as <- <-.
  split; [|split; reflexivity].
  eexists. split; reflexivity.
Qed.

(** A typed array cannot be resized: a caller's store keeps the length of
    every array of the heap. *)
Lemma arraySet_keeps_lengths r i v w r' :
  length <$> heap (snd (arraySet r i v w)) !! r' = length <$> heap w !! r'.
Proof.
  unfold arraySet. cbn [snd heap].
  destruct (decide (r = r')) as [<-|Hne].
  - rewrite list_lookup_alter_eq. destruct (heap w !! r); simpl; [|reflexivity].
    now rewrite length_insert.
  - now rewrite list_lookup_alter_ne.
Qed.

(** The sibling [DataManager.loadGeneExpression] does coalesce: of [S n]
    calls for a gene that is neither loaded nor being loaded, the first
    starts the load and registers its promise, and every later one returns
    that promise; [loadSparseMatrix] is called once. *)
Lemma loadGeneExpression_coalesces n geneName s :
  DataManager.geneData (DataManager.manager s) !! geneName = None ->
  DataManager.loadingPromises (DataManager.manager s) !! ("gene_" +:+ geneName) = None ->
  DataManager.isGeneMatrixLoaded (DataManager.manager s) = false ->
  fst (DataManager.callMany (S n) geneName s)
  = DataManager.Starts (DataManager.promises s)
    :: replicate n (DataManager.Shares (DataManager.promises s)) /\
  DataManager.matrixLoads (snd (DataManager.callMany (S n) geneName s))
  = DataManager.matrixLoads s ++ [DataManager.GENE_EXPRESSION_SPARSE_FILE].
Proof.
  intros Hdata Hprom Hloaded.
  set (m := DataManager.manager s).
  set (s1 := DataManager.mkState
               (DataManager.mkManager
                  (DataManager.geneData m) (DataManager.geneSparseMatrix m)
                  (DataManager.isGeneMatrixLoaded m)
                  (<["gene_" +:+ geneName := DataManager.promises s]>
                     (DataManager.loadingPromises m)))
               (S (DataManager.promises s))
               (DataManager.matrixLoads s ++ [DataManager.GENE_EXPRESSION_SPARSE_FILE])).
  assert (Hfirst : DataManager.loadGeneExpression_call geneName s
                   = (DataManager.Starts (DataManager.promises s), s1)).
  { unfold DataManager.loadGeneExpression_call.
    fold m. fold m in Hdata, Hprom, Hloaded. rewrite Hdata, Hprom.
    unfold DataManager._loadGeneExpressionImpl_call.
    fold m. rewrite Hloaded. reflexivity. }
  assert (Hrest : forall k,
            DataManager.callMany k geneName s1
            = (replicate k (DataManager.Shares (DataManager.promises s)), s1)).
  { induction k as [|k IH]; [reflexivity|].
    cbn [DataManager.callMany].
    unfold DataManager.loadGeneExpression_call at 1.
    assert (Hd1 : DataManager.geneData (DataManager.manager s1) !! geneName = None)
      by exact Hdata.
    assert (Hp1 : DataManager.loadingPromises (DataManager.manager s1)
                  !! ("gene_" +:+ geneName) = Some (DataManager.promises s))
      by apply lookup_insert_eq.
    rewrite Hd1, Hp1, IH. reflexivity. }
  assert (Hall : DataManager.callMany (S n) geneName s
                 = (DataManager.Starts (DataManager.promises s)
                      :: replicate n (DataManager.Shares (DataManager.promises s)),
                    s1)).
  { cbn [DataManager.callMany]. now rewrite Hfirst, Hrest. }
  rewrite Hall. split; reflexivity.
Qed.

(** Three calls for one gene on a new manager: one load, one promise. *)
Example loadGeneExpression_three_calls :
  fst (DataManager.callMany 3 "Sox9" DataManager.newState)
  = [DataManager.Starts 0; DataManager.Shares 0; DataManager.Shares 0] /\
  DataManager.matrixLoads (snd (DataManager.callMany 3 "Sox9" DataManager.newState))
  = ["./data/gene_expression_sparse.json"%string].
Proof. split; reflexivity. Qed.

(* ================================================================= *)
(** * Further properties of the code *)

(** ** Reads inside and outside a buffer *)

Lemma getUint32_inside buffer offset :
  (offset + 4 <= length buffer)%nat ->
  DataView.getUint32 buffer offset = Ok (le_combine (take 4 (drop offset buffer))).
Proof.
  intros H. unfold DataView.getUint32.
  destruct (Nat.leb_spec (offset + 4) (length buffer)); [reflexivity | lia].
Qed.

Lemma getUint32_outside buffer offset :
  (length buffer < offset + 4)%nat ->
  DataView.getUint32 buffer offset = Throw RangeError.
Proof.
  intros H. unfold DataView.getUint32.
  destruct (Nat.leb_spec (offset + 4) (length buffer)); [lia | reflexivity].
Qed.

Lemma getUint32_header buffer :
  (4 <= length buffer)%nat ->
  DataView.getUint32 buffer 0 = Ok (Z.of_nat (announcedCount buffer)).
Proof.
  intros H. rewrite getUint32_inside by lia. unfold announcedCount.
  rewrite drop_0, Z2Nat.id; [reflexivity | apply le_combine_bound].
Qed.

(** Bytes after the ones read do not matter. *)
Lemma getUint32_app buffer extra offset :
  (offset + 4 <= length buffer)%nat ->
  DataView.getUint32 (buffer ++ extra) offset = DataView.getUint32 buffer offset.
Proof.
  intros H. rewrite !getUint32_inside by (rewrite ?length_app; lia).
  rewrite drop_app_le by lia.
  rewrite take_app_le by (rewrite length_drop; lia). reflexivity.
Qed.

(** ** The sparse decoder and the length of the buffer *)

Lemma readPairs_complete buffer n : forall offset,
  (offset + 8 * n <= length buffer)%nat ->
  exists pairs, readPairs buffer n offset = Ok pairs.
Proof.
  induction n as [|n IH]; intros offset H; simpl; [eauto|].
  unfold DataView.getFloat32. fold (DataView.getUint32 buffer (offset + 4)).
  rewrite !getUint32_inside by lia. simpl.
  destruct (IH (offset + 8)%nat) as [pairs ->]; [lia|]. simpl. eauto.
Qed.

Lemma readPairs_truncated buffer n : forall offset,
  (0 < n)%nat -> (length buffer < offset + 8 * n)%nat ->
  readPairs buffer n offset = Throw RangeError.
Proof.
  induction n as [|n IH]; intros offset Hn H; [lia|]. simpl.
  destruct (Nat.le_gt_cases (offset + 4) (length buffer)) as [H1|H1];
    [|now rewrite getUint32_outside].
  rewrite getUint32_inside by exact H1. simpl.
  unfold DataView.getFloat32. fold (DataView.getUint32 buffer (offset + 4)).
  destruct (Nat.le_gt_cases (offset + 4 + 4) (length buffer)) as [H2|H2];
    [|now rewrite getUint32_outside].
  rewrite getUint32_inside by exact H2. simpl.
  rewrite IH by lia. reflexivity.
Qed.

Lemma readPairs_app buffer extra n : forall offset,
  (offset + 8 * n <= length buffer)%nat ->
  readPairs (buffer ++ extra) n offset = readPairs buffer n offset.
Proof.
  induction n as [|n IH]; intros offset H; simpl; [reflexivity|].
  unfold DataView.getFloat32.
  fold (DataView.getUint32 (buffer ++ extra) (offset + 4)).
  fold (DataView.getUint32 buffer (offset + 4)).
  rewrite !getUint32_app by lia. rewrite IH by lia. reflexivity.
Qed.

Lemma _parseFeatureBinary_complete t bd buffer :
  baseData t = Some bd ->
  (4 + 8 * announcedCount buffer <= length buffer)%nat ->
  exists featureArray,
    _parseFeatureBinary t buffer = Ok featureArray /\
    length featureArray = length (cellIds bd).
Proof.
  intros Hbd H. rewrite (_parseFeatureBinary_pairs _ _ _ Hbd). unfold recordPairs.
  rewrite getUint32_header by lia. simpl. rewrite Nat2Z.id.
  destruct (readPairs_complete buffer (announcedCount buffer) 4 H) as [pairs ->].
  simpl. eexists. split; [reflexivity|].
  now rewrite foldl_storePair_length, length_replicate.
Qed.

Lemma _parseFeatureBinary_truncated t buffer :
  (length buffer < 4 + 8 * announcedCount buffer)%nat ->
  exists e, _parseFeatureBinary t buffer = Throw e.
Proof.
  intros H. unfold _parseFeatureBinary.
  destruct (Nat.le_gt_cases 4 (length buffer)) as [H4|H4];
    [|rewrite getUint32_outside by exact H4; simpl; eauto].
  rewrite getUint32_header by exact H4. simpl. rewrite Nat2Z.id.
  destruct (cellCount t) as [n|e]; simpl; [|eauto].
  rewrite fillNonZero_readPairs, readPairs_truncated by lia. simpl. eauto.
Qed.

(** X1: with the base data loaded, [_parseFeatureBinary] succeeds exactly
    when the buffer holds the four-byte count and the eight bytes of every
    announced pair; it then returns an array with one entry per cell, and
    otherwise it throws a [RangeError]. *)
Theorem sparse_decode_needs_whole_record t bd buffer :
  baseData t = Some bd ->
  ((4 + 8 * announcedCount buffer <= length buffer)%nat ->
   exists featureArray,
     _parseFeatureBinary t buffer = Ok featureArray /\
     length featureArray = length (cellIds bd)) /\
  ((length buffer < 4 + 8 * announcedCount buffer)%nat ->
   _parseFeatureBinary t buffer = Throw RangeError).
Proof.
  intros Hbd. split; intros H.
  - now apply _parseFeatureBinary_complete.
  - rewrite (_parseFeatureBinary_pairs _ _ _ Hbd). unfold recordPairs.
    destruct (Nat.le_gt_cases 4 (length buffer)) as [H4|H4];
      [|now rewrite getUint32_outside].
    rewrite getUint32_header by exact H4. simpl. rewrite Nat2Z.id.
    rewrite readPairs_truncated by lia. reflexivity.
Qed.

Lemma sparse_decode_needs_whole_record_witness :
  (exists featureArray,
     _parseFeatureBinary twoCells recordIndex5 = Ok featureArray /\
     length featureArray = 2%nat) /\
  _parseFeatureBinary twoCells [x02; x00; x00; x00;  x00; x00; x00; x00;  x00; x00; x80; x3f]
  = Throw RangeError.
Proof.
  split.
  - apply (sparse_decode_needs_whole_record twoCells
             (mkBaseData ["c0"; "c1"]%string [] [] [] []) recordIndex5 eq_refl).
    vm_compute. lia.
  - apply (sparse_decode_needs_whole_record twoCells
             (mkBaseData ["c0"; "c1"]%string [] [] [] [])
             [x02; x00; x00; x00;  x00; x00; x00; x00;  x00; x00; x80; x3f] eq_refl).
    vm_compute. lia.
Defined.

(** X2: bytes that follow a complete record are ignored: the decoder
    returns for the longer buffer what it returns for the record. *)
Theorem sparse_decode_ignores_trailing_bytes t buffer extra :
  (4 + 8 * announcedCount buffer <= length buffer)%nat ->
  _parseFeatureBinary t (buffer ++ extra) = _parseFeatureBinary t buffer.
Proof.
  intros H. unfold _parseFeatureBinary.
  rewrite getUint32_app by lia.
  rewrite getUint32_header by lia. simpl. rewrite Nat2Z.id.
  destruct (cellCount t) as [n|e]; simpl; [|reflexivity].
  rewrite !fillNonZero_readPairs, readPairs_app by exact H. reflexivity.
Qed.

Lemma sparse_decode_ignores_trailing_bytes_witness :
  _parseFeatureBinary twoCells (geneXFile ++ [xff; xff; xff])
  = _parseFeatureBinary twoCells geneXFile.
Proof.
  apply (sparse_decode_ignores_trailing_bytes twoCells geneXFile [xff; xff; xff]).
  vm_compute. lia.
Defined.

(** ** The coordinate table *)

Lemma getFloat32_inside buffer offset :
  (offset + 4 <= length buffer)%nat ->
  DataView.getFloat32 buffer offset = Ok (le_combine (take 4 (drop offset buffer))).
Proof. exact (getUint32_inside buffer offset). Qed.

Lemma getFloat32_outside buffer offset :
  (length buffer < offset + 4)%nat ->
  DataView.getFloat32 buffer offset = Throw RangeError.
Proof. exact (getUint32_outside buffer offset). Qed.

Lemma readCoordinates_complete buffer n : forall offset acc,
  (offset + 8 * n <= length buffer)%nat ->
  exists cs, readCoordinates buffer n offset acc = Ok cs /\
             length cs = (length acc + n)%nat.
Proof.
  induction n as [|n IH]; intros offset acc H; simpl.
  - exists acc. split; [reflexivity | lia].
  - rewrite !getFloat32_inside by lia. simpl.
    destruct (IH (offset + 8)%nat
                (acc ++ [mkCoordinate (le_combine (take 4 (drop offset buffer)))
                                      (le_combine (take 4 (drop (offset + 4) buffer)))]))
      as (cs & -> & Hlen); [lia|].
    exists cs. split; [reflexivity|]. rewrite length_app in Hlen. simpl in Hlen. lia.
Qed.

Lemma readCoordinates_truncated buffer n : forall offset acc,
  (0 < n)%nat -> (length buffer < offset + 8 * n)%nat ->
  readCoordinates buffer n offset acc = Throw RangeError.
Proof.
  induction n as [|n IH]; intros offset acc Hn H; [lia|]. simpl.
  destruct (Nat.le_gt_cases (offset + 4) (length buffer)) as [H1|H1];
    [|now rewrite getFloat32_outside].
  rewrite getFloat32_inside by exact H1. simpl.
  destruct (Nat.le_gt_cases (offset + 4 + 4) (length buffer)) as [H2|H2];
    [|now rewrite getFloat32_outside].
  rewrite getFloat32_inside by exact H2. simpl.
  apply IH; lia.
Qed.

(** X3: [_loadCoordinates] decodes exactly the announced number of
    coordinates when the buffer holds the count and eight bytes for each,
    and throws a [RangeError] when the buffer is shorter than that. *)
Theorem coordinates_decode_needs_whole_table buffer :
  ((4 + 8 * announcedCount buffer <= length buffer)%nat ->
   exists cs, parseCoordinates buffer = Ok cs /\
              length cs = announcedCount buffer) /\
  ((length buffer < 4 + 8 * announcedCount buffer)%nat ->
   parseCoordinates buffer = Throw RangeError).
Proof.
  unfold parseCoordinates. split; intros H.
  - rewrite getUint32_header by lia. simpl. rewrite Nat2Z.id.
    destruct (readCoordinates_complete buffer (announcedCount buffer) 4 [] H)
      as (cs & -> & Hlen).
    exists cs. split; [reflexivity | exact Hlen].
  - destruct (Nat.le_gt_cases 4 (length buffer)) as [H4|H4];
      [|now rewrite getUint32_outside].
    rewrite getUint32_header by exact H4. simpl. rewrite Nat2Z.id.
    apply readCoordinates_truncated; lia.
Qed.

Lemma readCoordinates_layout cs : forall (pre extra : list byte) acc,
  Forall (fun c => 0 <= cx c < 2 ^ 32 /\ 0 <= cy c < 2 ^ 32) cs ->
  readCoordinates (pre ++ flat_map coordinateBytes cs ++ extra)
                  (length cs) (length pre) acc
  = Ok (acc ++ cs).
Proof.
  induction cs as [|[a b] cs IH]; intros pre extra acc Hb.
  - simpl. now rewrite app_nil_r.
  - inversion Hb as [|? ? [Ha Hb0] Hb']; subst. simpl in Ha, Hb0.
    cbn [length readCoordinates flat_map].
    change (coordinateBytes (mkCoordinate a b)) with (le_split 4 a ++ le_split 4 b).
    rewrite <- !app_assoc.
    rewrite getFloat32_at. cbn [bindR].
    replace (pre ++ le_split 4 a ++ le_split 4 b ++ flat_map coordinateBytes cs ++ extra)
      with ((pre ++ le_split 4 a) ++ le_split 4 b ++ flat_map coordinateBytes cs ++ extra)
      by now rewrite <- app_assoc.
    replace (length pre + 4)%nat with (length (pre ++ le_split 4 a))
      by now rewrite length_app, length_le_split.
    rewrite getFloat32_at. cbn [bindR].
    replace ((pre ++ le_split 4 a) ++ le_split 4 b ++ flat_map coordinateBytes cs ++ extra)
      with ((pre ++ le_split 4 a ++ le_split 4 b) ++ flat_map coordinateBytes cs ++ extra)
      by now rewrite <- !app_assoc.
    replace (length pre + 8)%nat with (length (pre ++ le_split 4 a ++ le_split 4 b))
      by (rewrite !length_app, !length_le_split; lia).
    rewrite IH by exact Hb'.
    rewrite !Z.mod_small by lia. now rewrite <- app_assoc.
Qed.

(** X4: decoding a coordinate table gives back the coordinates written in
    it, in order, whatever bytes follow the table. *)
Theorem coordinates_layout_roundtrip cs extra :
  Z.of_nat (length cs) < 2 ^ 32 ->
  Forall (fun c => 0 <= cx c < 2 ^ 32 /\ 0 <= cy c < 2 ^ 32) cs ->
  parseCoordinates (coordinateTable cs ++ extra) = Ok cs.
Proof.
  intros Hn Hb. unfold parseCoordinates, coordinateTable.
  rewrite <- app_assoc.
  pose proof (getUint32_at [] (flat_map coordinateBytes cs ++ extra)
                (Z.of_nat (length cs))) as H0.
  cbn [app length] in H0. rewrite H0. cbn [bindR].
  rewrite Z.mod_small by lia. rewrite Nat2Z.id.
  exact (readCoordinates_layout cs (le_split 4 (Z.of_nat (length cs))) extra [] Hb).
Qed.

Lemma coordinates_layout_roundtrip_witness :
  parseCoordinates
    (coordinateTable [mkCoordinate 0x3f800000 0x40000000; mkCoordinate 0 0xbf800000]
     ++ [x07])
  = Ok [mkCoordinate 0x3f800000 0x40000000; mkCoordinate 0 0xbf800000].
Proof.
  apply coordinates_layout_roundtrip.
  - simpl. lia.
  - repeat constructor; simpl; lia.
Defined.

(** ** String tables *)

Lemma Uint8Array_view_at (pre bs post : list byte) :
  Uint8Array_view (pre ++ bs ++ post) (length pre) (length bs) = Ok bs.
Proof.
  unfold Uint8Array_view. rewrite !length_app.
  destruct (Nat.leb_spec (length pre + length bs)
              (length pre + (length bs + length post))); [|lia].
  rewrite drop_app_length, take_app_length. reflexivity.
Qed.

Lemma readStrings_layout strs : forall (pre extra : list byte) acc,
  Forall (fun bs : list byte => Z.of_nat (length bs) < 2 ^ 32) strs ->
  readStrings (pre ++ flat_map stringBytes strs ++ extra)
              (length strs) (length pre) acc
  = Ok (acc ++ map TextDecoder_decode strs).
Proof.
  induction strs as [|bs strs IH]; intros pre extra acc Hb.
  - simpl. now rewrite app_nil_r.
  - inversion Hb as [|? ? Hlen Hb']; subst.
    cbn [length readStrings flat_map map].
    change (stringBytes bs) with (le_split 4 (Z.of_nat (length bs)) ++ bs).
    rewrite <- !app_assoc.
    rewrite getUint32_at. cbn [bindR].
    rewrite Z.mod_small by lia. rewrite Nat2Z.id.
    replace (pre ++ le_split 4 (Z.of_nat (length bs)) ++ bs ++ flat_map stringBytes strs ++ extra)
      with ((pre ++ le_split 4 (Z.of_nat (length bs))) ++ bs ++ flat_map stringBytes strs ++ extra)
      by now rewrite <- app_assoc.
    replace (length pre + 4)%nat
      with (length (pre ++ le_split 4 (Z.of_nat (length bs))))
      by now rewrite length_app, length_le_split.
    rewrite Uint8Array_view_at. cbn [bindR].
    replace ((pre ++ le_split 4 (Z.of_nat (length bs))) ++ bs ++ flat_map stringBytes strs ++ extra)
      with (((pre ++ le_split 4 (Z.of_nat (length bs))) ++ bs) ++ flat_map stringBytes strs ++ extra)
      by now rewrite <- !app_assoc.
    replace (length (pre ++ le_split 4 (Z.of_nat (length bs))) + length bs)%nat
      with (length ((pre ++ le_split 4 (Z.of_nat (length bs))) ++ bs))
      by now rewrite (length_app _ bs).
    rewrite IH by exact Hb'. now rewrite <- app_assoc.
Qed.

(** X5: decoding a string table gives back the strings written in it, in
    order, whatever bytes follow the table; this is the decoder of the cell
    identifiers, the section labels and the cell types. *)
Theorem string_table_layout_roundtrip strs extra :
  Z.of_nat (length strs) < 2 ^ 32 ->
  Forall (fun bs : list byte => Z.of_nat (length bs) < 2 ^ 32) strs ->
  parseStringArray (stringTable strs ++ extra) = Ok (map TextDecoder_decode strs).
Proof.
  intros Hn Hb. unfold parseStringArray, stringTable.
  rewrite <- app_assoc.
  pose proof (getUint32_at [] (flat_map stringBytes strs ++ extra)
                (Z.of_nat (length strs))) as H0.
  cbn [app length] in H0. rewrite H0. cbn [bindR].
  rewrite Z.mod_small by lia. rewrite Nat2Z.id.
  exact (readStrings_layout strs (le_split 4 (Z.of_nat (length strs))) extra [] Hb).
Qed.

Lemma string_table_layout_roundtrip_witness :
  parseStringArray (stringTable [[x63; x30]; []; [x63; x31; x32]] ++ [x00])
  = Ok ["c0"; ""; "c12"]%string.
Proof.
  apply (string_table_layout_roundtrip [[x63; x30]; []; [x63; x31; x32]] [x00]).
  - simpl. lia.
  - repeat constructor; simpl; lia.
Defined.

Lemma readStrings_result buffer n : forall offset acc strs,
  readStrings buffer n offset acc = Ok strs ->
  length strs = (length acc + n)%nat /\
  (n = 0%nat \/ offset + 4 * n <= length buffer)%nat.
Proof.
  induction n as [|n IH]; intros offset acc strs; simpl.
  - intros [= <-]. split; [lia | now left].
  - destruct (Nat.le_gt_cases (offset + 4) (length buffer)) as [H1|H1];
      [|rewrite getUint32_outside by exact H1; discriminate].
    rewrite getUint32_inside by exact H1. simpl.
    destruct (Uint8Array_view buffer (offset + 4) _) as [bs|e] eqn:Hv; simpl;
      [|discriminate].
    intros Hr. apply IH in Hr as [Hlen Hfit].
    rewrite length_app in Hlen. simpl in Hlen. split; [lia|]. right.
    unfold Uint8Array_view in Hv.
    destruct (Nat.leb_spec
                (offset + 4 + Z.to_nat (le_combine (take 4 (drop offset buffer))))
                (length buffer)); [|discriminate].
    destruct Hfit as [->|Hfit]; lia.
Qed.

(** X6: when [_loadStringArray] succeeds it returns exactly the announced
    number of strings, and the buffer holds at least the count and a length
    field for every string; a count the buffer cannot hold makes it throw. *)
Theorem string_table_decode_count buffer strs :
  parseStringArray buffer = Ok strs ->
  length strs = announcedCount buffer /\
  (4 + 4 * announcedCount buffer <= length buffer)%nat.
Proof.
  unfold parseStringArray.
  destruct (Nat.le_gt_cases 4 (length buffer)) as [H4|H4];
    [|rewrite getUint32_outside by exact H4; discriminate].
  rewrite getUint32_header by exact H4. simpl. rewrite Nat2Z.id.
  intros Hr. apply readStrings_result in Hr as [Hlen Hfit].
  split; [exact Hlen|]. destruct Hfit as [->|Hfit]; lia.
Qed.

Lemma string_table_decode_count_witness :
  length ["c0"; "c1"]%string = announcedCount cellIdsFile /\
  (4 + 4 * announcedCount cellIdsFile <= length cellIdsFile)%nat.
Proof.
  exact (string_table_decode_count cellIdsFile ["c0"; "c1"]%string eq_refl).
Defined.

Lemma coordinates_decode_needs_whole_table_witness :
  (exists cs, parseCoordinates coordinatesFile = Ok cs /\ length cs = 2%nat) /\
  parseCoordinates [x02; x00; x00; x00;  x00; x00; x80; x3f;  x00; x00; x00; x40]
  = Throw RangeError.
Proof.
  split.
  - apply (coordinates_decode_needs_whole_table coordinatesFile). vm_compute. lia.
  - apply (coordinates_decode_needs_whole_table
             [x02; x00; x00; x00;  x00; x00; x80; x3f;  x00; x00; x00; x40]).
    vm_compute. lia.
Defined.

(** ** Assembling the cell sequence *)

Lemma buildCells_app ids : forall i coords secs types acc,
  buildCells ids i coords secs types acc
  = (let* cells := buildCells ids i coords secs types [] in Ok (acc ++ cells)).
Proof.
  induction ids as [|cid ids IH]; intros i coords secs types acc; simpl.
  - now rewrite app_nil_r.
  - destruct (coords !! i) as [c|]; [|reflexivity].
    rewrite (IH _ _ _ _ (acc ++ _)), (IH _ _ _ _ [_]).
    destruct (buildCells ids (S i) coords secs types []); simpl; [|reflexivity].
    now rewrite <- app_assoc.
Qed.

Lemma buildCells_zip ids coords secs types : forall i,
  ((i + length ids <= length coords)%nat ->
   exists cells,
     buildCells ids i coords secs types [] = Ok cells /\
     length cells = length ids /\
     forall k cid c, ids !! k = Some cid -> coords !! (i + k)%nat = Some c ->
       cells !! k = Some (mkCell cid (cx c) (cy c)
                                 (secs !! (i + k)%nat) (types !! (i + k)%nat))) /\
  ((0 < length ids)%nat -> (length coords < i + length ids)%nat ->
   buildCells ids i coords secs types [] = Throw TypeError).
Proof.
  induction ids as [|cid ids IH]; intros i; cbn [buildCells length].
  - split; [|lia]. intros _. exists []. repeat split. intros k ? ? Hk. discriminate Hk.
  - destruct (IH (S i)) as [IHok IHfail]. split; [intros H | intros _ H].
    + destruct (lookup_lt_is_Some_2 coords i) as [c Hc]; [lia|]. rewrite Hc.
      rewrite buildCells_app.
      destruct IHok as (cells & -> & Hlen & Hent); [lia|]. simpl.
      eexists. split; [reflexivity|]. split; [simpl; lia|].
      intros [|k] cid' c' Hk Hck; simpl in Hk.
      * injection Hk as <-. rewrite Nat.add_0_r in *.
        rewrite Hc in Hck. injection Hck as <-. reflexivity.
      * simpl. replace (i + S k)%nat with (S i + k)%nat in * by lia.
        now apply Hent.
    + destruct (coords !! i) as [c|] eqn:Hc; [|reflexivity].
      apply lookup_lt_Some in Hc.
      rewrite buildCells_app, IHfail by lia. reflexivity.
Qed.

(** X7: [_loadBaseData] zips the four tables by position: with at least as
    many coordinates as identifiers it builds one cell per identifier, cell
    [k] carrying identifier [k], coordinate [k] and the [k]-th section and
    cell-type labels ([undefined] when a label table is shorter); surplus
    coordinates and labels are ignored.  With fewer coordinates than
    identifiers it throws a [TypeError]. *)
Theorem base_data_zips_tables ids coords secs types :
  ((length ids <= length coords)%nat ->
   exists bd,
     assembleBaseData ids coords secs types = Ok bd /\
     cellIds bd = ids /\
     length (baseDataCells bd) = length ids /\
     forall k cid c, ids !! k = Some cid -> coords !! k = Some c ->
       baseDataCells bd !! k
       = Some (mkCell cid (cx c) (cy c) (secs !! k) (types !! k))) /\
  ((length coords < length ids)%nat ->
   assembleBaseData ids coords secs types = Throw TypeError).
Proof.
  unfold assembleBaseData.
  destruct (buildCells_zip ids coords secs types 0) as [Hok Hfail].
  split; intros H.
  - destruct Hok as (cells & -> & Hlen & Hent); [simpl; lia|]. simpl.
    eexists. split; [reflexivity|]. repeat split; [exact Hlen|].
    intros k cid c Hk Hc. exact (Hent k cid c Hk Hc).
  - rewrite Hfail by (simpl; lia). reflexivity.
Qed.

Lemma base_data_zips_tables_witness :
  (exists bd,
     assembleBaseData ["c0"; "c1"]%string
       [mkCoordinate 1 2; mkCoordinate 3 4; mkCoordinate 5 6] ["s1"%string] [] = Ok bd /\
     cellIds bd = ["c0"; "c1"]%string /\
     length (baseDataCells bd) = 2%nat /\
     forall k cid c, ["c0"; "c1"]%string !! k = Some cid ->
       [mkCoordinate 1 2; mkCoordinate 3 4; mkCoordinate 5 6] !! k = Some c ->
       baseDataCells bd !! k
       = Some (mkCell cid (cx c) (cy c) (["s1"%string] !! k) ([] !! k))) /\
  assembleBaseData ["c0"; "c1"]%string [mkCoordinate 1 2] ["s1"%string] []
  = Throw TypeError.
Proof.
  split.
  - apply (base_data_zips_tables ["c0"; "c1"]%string
             [mkCoordinate 1 2; mkCoordinate 3 4; mkCoordinate 5 6] ["s1"%string] []).
    simpl. lia.
  - apply (base_data_zips_tables ["c0"; "c1"]%string
             [mkCoordinate 1 2] ["s1"%string] []).
    simpl. lia.
Defined.

(** ** What [init()] requests and what it leaves alone *)

(** X8: [init()] never touches the feature cache or the arrays: whatever it
    returns, the base path, the cached features and the heap are as before,
    so a feature cached before a repeated [init()] is still served from the
    cache, without a request. *)
Theorem init_keeps_cache env w featureName category cached :
  loadedFeatures (this w) !! featureName = Some cached ->
  let w' := snd (init env w) in
  basePath (this w') = basePath (this w) /\
  loadedFeatures (this w') = loadedFeatures (this w) /\
  heap w' = heap w /\
  loadFeature env featureName category w' = (Ok cached, w').
Proof.
  intros Hc w'.
  assert (H : basePath (this w') = basePath (this w) /\
              loadedFeatures (this w') = loadedFeatures (this w) /\
              heap w' = heap w).
  { unfold w'. rewrite init_eq. cbn zeta.
    destruct (jsonFiles env _); [|now repeat split].
    destruct (baseDataOf env _); now repeat split. }
  destruct H as (Hb & Hl & Hh). repeat split; [exact Hb | exact Hl | exact Hh |].
  apply loadFeature_cached. now rewrite Hl.
Qed.

Lemma init_keeps_cache_witness :
  let w := snd (loadFeature sampleEnv "X" "genes" sampleWorld) in
  let w' := snd (init sampleEnv w) in
  basePath (this w') = basePath (this w) /\
  loadedFeatures (this w') = loadedFeatures (this w) /\
  heap w' = heap w /\
  loadFeature sampleEnv "X" "genes" w' = (Ok 0%nat, w').
Proof.
  exact (init_keeps_cache sampleEnv
           (snd (loadFeature sampleEnv "X" "genes" sampleWorld))
           "X" "genes" 0%nat eq_refl).
Defined.

(** X9: [init()] requests the descriptor first.  When that request fails,
    [init()] throws, no base file is requested and the loader is unchanged;
    when it succeeds, the four base files are requested, in the order cell
    identifiers, coordinates, sections, cell types, whatever any of them
    answers. *)
Theorem init_request_order env w :
  let url := basePath (this w) +:+ "/metadata.json" in
  let '(r, w') := init env w in
  match jsonFiles env url with
  | None =>
      r = Throw FetchError /\ this w' = this w /\
      requests w' = requests w ++ [url]
  | Some _ =>
      requests w' = requests w ++ url :: baseDataRequests (basePath (this w))
  end.
Proof.
  intros url. rewrite init_eq. cbn zeta. fold url.
  destruct (jsonFiles env url); [|now repeat split].
  destruct (baseDataOf env _); reflexivity.
Qed.

(** X10: after an [init()] that succeeded, none of the accessors throws:
    [getBaseData()], [getAllFeatures()] and [getStats()] all return, and
    [getStats()] reports the number of cells of [getBaseData()] and the
    number of cached features. *)
Theorem accessors_after_init env w b w' :
  init env w = (Ok b, w') ->
  exists cells feats st,
    getBaseData (this w') = Ok cells /\
    getAllFeatures (this w') = Ok feats /\
    getStats (this w') = Ok st /\
    totalCells st = length cells /\
    loadedFeaturesCount st = size (loadedFeatures (this w)).
Proof.
  rewrite init_eq. cbn zeta.
  destruct (jsonFiles env _) as [md|]; [|discriminate].
  destruct (baseDataOf env _) as [bd|e] eqn:Hbd; [|discriminate].
  destruct (genes md) as [g|] eqn:Hg; [|discriminate].
  destruct (tfs md) as [f|] eqn:Hf; [|discriminate].
  intros [= _ <-].
  unfold getBaseData, getAllFeatures, getStats, cellCount. simpl.
  rewrite Hg, Hf. simpl.
  eexists _, _, _. repeat split.
  simpl. symmetry. eapply baseDataOf_cells, Hbd.
Qed.

Lemma accessors_after_init_witness :
  exists cells feats st,
    getBaseData (this sampleWorld) = Ok cells /\
    getAllFeatures (this sampleWorld) = Ok feats /\
    getStats (this sampleWorld) = Ok st /\
    totalCells st = length cells /\
    loadedFeaturesCount st = size (loadedFeatures (this newWorld)).
Proof.
  exact (accessors_after_init sampleEnv newWorld true sampleWorld eq_refl).
Defined.

(** ** Loads, the cache and the request log *)

Lemma zeroFallback_unloaded w :
  baseData (this w) = None -> zeroFallback w = (Throw TypeError, w).
Proof.
  intros H. unfold zeroFallback, bindM, getThis, lift, cellCount. now rewrite H.
Qed.

(** The second half of a load, with the base data present, in closed form. *)
Lemma loadFeature_resume_loaded featureName response w bd :
  baseData (this w) = Some bd ->
  loadFeature_resume featureName response w
  = (Ok (length (heap w)),
     mkWorld (fst (afterLoad (this w) bd featureName (length (heap w)) response))
             (heap w ++ [snd (afterLoad (this w) bd featureName (length (heap w)) response)])
             (requests w)).
Proof.
  intros Hbd. unfold afterLoad.
  destruct response as [buffer|]; simpl.
  - destruct (_parseFeatureBinary (this w) buffer) as [contents|e] eqn:Hp; simpl.
    + now rewrite (loadFeature_resume_decodes _ _ contents).
    + rewrite loadFeature_resume_fails by (simpl; eauto).
      now rewrite (zeroFallback_loaded _ bd).
  - rewrite loadFeature_resume_fails by exact I.
    now rewrite (zeroFallback_loaded _ bd).
Qed.

Lemma afterLoad_frame t bd featureName r response :
  basePath (fst (afterLoad t bd featureName r response)) = basePath t /\
  baseData (fst (afterLoad t bd featureName r response)) = baseData t /\
  metadata (fst (afterLoad t bd featureName r response)) = metadata t /\
  forall other, other <> featureName ->
    loadedFeatures (fst (afterLoad t bd featureName r response)) !! other
    = loadedFeatures t !! other.
Proof.
  unfold afterLoad. destruct (response ≫= _); simpl; repeat split; try reflexivity.
  intros other Hne. now rewrite lookup_insert_ne.
Qed.

(** [loadFeature] issues at most one request, and only on a miss. *)
Lemma loadFeature_requests env featureName category w :
  requests (snd (loadFeature env featureName category w))
  = requests w ++ match requestOf (this w) category featureName with
                  | Some url => [url]
                  | None => []
                  end.
Proof.
  unfold requestOf.
  destruct (loadedFeatures (this w) !! featureName) as [cached|] eqn:Hc.
  - rewrite (loadFeature_cached _ _ _ _ _ Hc). simpl. now rewrite app_nil_r.
  - rewrite (loadFeature_miss env _ _ _ Hc).
    set (url := featurePath (this w) featureName category).
    destruct (baseData (this w)) as [bd|] eqn:Hbd.
    + now rewrite (loadFeature_resume_loaded _ _ _ bd).
    + assert (Hf : loadFails (this (logged url w)) (binaryFiles env url)).
      { destruct (binaryFiles env url) as [buffer|]; simpl; [|exact I].
        unfold _parseFeatureBinary, cellCount. rewrite Hbd.
        destruct (DataView.getUint32 buffer 0); simpl; eauto. }
      rewrite loadFeature_resume_fails by exact Hf.
      now rewrite zeroFallback_unloaded.
Qed.

(** X11: [clearCache()] empties the cache and nothing else: the arrays
    handed out before stay as they are, [getStats()] then reports zero
    cached features, and the next [loadFeature] of any feature requests its
    file again. *)
Theorem clearCache_forces_reload env featureName category w :
  let w1 := snd (clearCache w) in
  loadedFeatures (this w1) = ∅ /\
  heap w1 = heap w /\
  baseData (this w1) = baseData (this w) /\
  match getStats (this w1) with
  | Ok st => loadedFeaturesCount st = 0%nat
  | Throw _ => True
  end /\
  requests (snd (loadFeature env featureName category w1))
  = requests w ++ [featurePath (this w) featureName category].
Proof.
  intros w1. repeat split.
  - unfold getStats, w1. simpl.
    destruct (cellCount _); simpl; [|exact I].
    destruct (metadata (this w)) as [md|]; [|exact I].
    destruct (genes md), (tfs md); try exact I. reflexivity.
  - rewrite loadFeature_requests. unfold requestOf, w1. simpl.
    now rewrite lookup_empty.
Qed.

(** X12: [getStats().loadedFeatures] counts the features decoded so far: a
    load that misses the cache and decodes its file raises the count by
    one and leaves the other figures alone. *)
Theorem stats_count_successful_loads env featureName category w buffer contents st :
  loadedFeatures (this w) !! featureName = None ->
  binaryFiles env (featurePath (this w) featureName category) = Some buffer ->
  _parseFeatureBinary (this w) buffer = Ok contents ->
  getStats (this w) = Ok st ->
  getStats (this (snd (loadFeature env featureName category w)))
  = Ok (mkStats (totalCells st) (S (loadedFeaturesCount st))
                (genesTotal st) (tfsTotal st)).
Proof.
  intros Hc Hf Hp Hst.
  rewrite (loadFeature_miss env _ _ _ Hc), Hf.
  rewrite (loadFeature_resume_decodes _ _ contents) by exact Hp.
  revert Hst. unfold getStats, cellCount. simpl.
  destruct (baseData (this w)); simpl; [|discriminate].
  destruct (metadata (this w)) as [md|]; [|discriminate].
  destruct (genes md), (tfs md); try discriminate.
  intros [= <-]. simpl. now rewrite map_size_insert_None.
Qed.

Lemma stats_count_successful_loads_witness :
  getStats (this (snd (loadFeature sampleEnv "X" "genes" sampleWorld)))
  = Ok (mkStats 2 1 1 0).
Proof.
  exact (stats_count_successful_loads sampleEnv "X" "genes" sampleWorld
           geneXFile [0; 0x3f800000] (mkStats 2 0 1 0)
           eq_refl eq_refl eq_refl eq_refl).
Defined.

(** X13: [loadFeature] on a loader whose base data is not loaded, for a
    feature that is not cached, issues the request and then throws a
    [TypeError] to the caller, whatever the request answers; nothing is
    cached. *)
Theorem loadFeature_without_base_data env featureName category w :
  baseData (this w) = None ->
  loadedFeatures (this w) !! featureName = None ->
  loadFeature env featureName category w
  = (Throw TypeError, logged (featurePath (this w) featureName category) w).
Proof.
  intros Hbd Hc. rewrite (loadFeature_miss env _ _ _ Hc).
  set (url := featurePath (this w) featureName category).
  assert (Hf : loadFails (this (logged url w)) (binaryFiles env url)).
  { destruct (binaryFiles env url) as [buffer|]; simpl; [|exact I].
    unfold _parseFeatureBinary, cellCount. rewrite Hbd.
    destruct (DataView.getUint32 buffer 0); simpl; eauto. }
  rewrite loadFeature_resume_fails by exact Hf.
  now apply zeroFallback_unloaded.
Qed.

Lemma loadFeature_without_base_data_witness :
  loadFeature sampleEnv "X" "genes" newWorld
  = (Throw TypeError, logged "./data/binary/genes/X.bin" newWorld).
Proof.
  exact (loadFeature_without_base_data sampleEnv "X" "genes" newWorld eq_refl eq_refl).
Defined.

(** X14: a feature file whose record is cut short (the buffer is shorter
    than the count and the announced pairs need) is answered like a missing
    file: [loadFeature] returns a fresh all-zero array with one entry per
    cell, none of the pairs read before the end shows in it, and the feature
    is not cached. *)
Theorem truncated_record_gives_zero_vector env featureName category w bd buffer :
  loadedFeatures (this w) !! featureName = None ->
  baseData (this w) = Some bd ->
  binaryFiles env (featurePath (this w) featureName category) = Some buffer ->
  (length buffer < 4 + 8 * announcedCount buffer)%nat ->
  exists r w',
    loadFeature env featureName category w = (Ok r, w') /\
    heap w' !! r = Some (replicate (length (cellIds bd)) f32_zero) /\
    this w' = this w.
Proof.
  intros Hc Hbd Hf Hshort.
  rewrite (loadFeature_miss env _ _ _ Hc), Hf.
  rewrite loadFeature_resume_fails
    by (simpl; now apply _parseFeatureBinary_truncated).
  rewrite (zeroFallback_loaded _ bd) by exact Hbd.
  eexists _, _. split; [reflexivity|]. split; [|reflexivity].
  simpl. now rewrite lookup_app_r, Nat.sub_diag.
Qed.

Lemma truncated_record_gives_zero_vector_witness :
  exists r w',
    loadFeature brokenEnv "T" "genes" (snd (init brokenEnv newWorld)) = (Ok r, w') /\
    heap w' !! r = Some [0; 0] /\
    this w' = this (snd (init brokenEnv newWorld)).
Proof.
  refine (truncated_record_gives_zero_vector brokenEnv "T" "genes"
            (snd (init brokenEnv newWorld))
            (mkBaseData ["c0"; "c1"]%string
               [mkCoordinate 0x3f800000 0x40000000; mkCoordinate 0x40400000 0x40800000]
               ["s1"; "s2"]%string ["a"; "b"]%string
               [mkCell "c0" 0x3f800000 0x40000000 (Some "s1"%string) (Some "a"%string);
                mkCell "c1" 0x40400000 0x40800000 (Some "s2"%string) (Some "b"%string)])
            geneTFile eq_refl eq_refl eq_refl _).
  vm_compute. lia.
Defined.

(** ** [loadMultipleFeatures] *)

(** The calls of a batch, in closed form: none of them changes the loader,
    and each name that is not cached adds its request to the log. *)
Lemma callEach_eq names category : forall w,
  callEach names category w
  = (Ok (map (startOf (this w) category) names),
     mkWorld (this w) (heap w)
             (requests w ++ omap (requestOf (this w) category) names)).
Proof.
  induction names as [|n names IH]; intros w; cbn [callEach map omap list_omap].
  - unfold ret. rewrite app_nil_r. now destruct w.
  - unfold bindM at 1. unfold loadFeature_call, bindM at 1, getThis.
    unfold startOf at 1, requestOf at 1.
    destruct (loadedFeatures (this w) !! n) as [cached|]; cbn [ret].
    + unfold bindM at 1. rewrite IH. reflexivity.
    + unfold bindM at 1, issueFetch. cbn [ret]. unfold bindM at 1. rewrite IH.
      cbn [this heap requests ret]. now rewrite <- app_assoc.
Qed.

Lemma settleEach_length env names : forall promises w results w',
  length promises = length names ->
  settleEach env names promises w = (Ok results, w') ->
  length results = length names.
Proof.
  induction names as [|n names IH]; intros [|s promises] w results w' Hlen;
    try discriminate; cbn [settleEach].
  - now intros [= <- _].
  - destruct (match s with
              | Resolved cached => (Ok cached, w)
              | Awaiting filePath => loadFeature_resume n (binaryFiles env filePath) w
              end) as [r w1].
    destruct (settleEach env names promises w1) as [rs w2] eqn:Hrest.
    destruct r as [a|e]; simpl; [|discriminate].
    destruct rs as [others|e]; simpl; [|discriminate].
    intros [= <- _]. simpl. f_equal. eapply IH; [|exact Hrest].
    simpl in Hlen. lia.
Qed.

Lemma combined_lookup names : forall results (acc : gmap string nat) n,
  length results = length names ->
  is_Some (foldl (fun a p => <[fst p := snd p]> a) acc (zip names results) !! n)
  <-> n ∈ names \/ is_Some (acc !! n).
Proof.
  induction names as [|m names IH]; intros [|r results] acc n Hlen;
    try discriminate; cbn [zip zip_with foldl].
  - rewrite elem_of_nil. tauto.
  - rewrite IH by (simpl in Hlen; lia). cbn [fst snd].
    rewrite elem_of_cons, lookup_insert_is_Some.
    destruct (decide (m = n)) as [->|Hne]; [tauto|].
    split; [intros [?|[?|[_ ?]]] | intros [[?|?]|?]]; try tauto; congruence.
Qed.

(** X15: when [loadMultipleFeatures] returns for names none of which is
    [__proto__] (which [combined[name] = ...] would not store as a key),
    the own keys of the object it returns are exactly the requested
    names. *)
Theorem loadMultipleFeatures_keys env names category w result w' :
  "__proto__"%string ∉ names ->
  loadMultipleFeatures env names category w = (Ok result, w') ->
  forall n, is_Some (result !! n) <-> n ∈ names.
Proof.
  intros _. unfold loadMultipleFeatures. unfold bindM at 1. rewrite callEach_eq.
  unfold bindM at 1.
  destruct (settleEach env names _ _) as [[results|e] w1] eqn:Hs; [|discriminate].
  unfold ret. intros [= <- _] n.
  apply settleEach_length in Hs; [|now rewrite length_map].
  rewrite combined_lookup by exact Hs.
  rewrite lookup_empty. split; [intros [?|[? ?]]; [assumption | discriminate] | tauto].
Qed.

Lemma loadMultipleFeatures_keys_witness :
  (is_Some (combined ["X"; "Y"]%string [0; 1]%nat !! "Y"%string)
   <-> "Y"%string ∈ ["X"; "Y"]%string) /\
  (is_Some (combined ["X"; "Y"]%string [0; 1]%nat !! "Z"%string)
   <-> "Z"%string ∈ ["X"; "Y"]%string).
Proof.
  assert (H : loadMultipleFeatures sampleEnv ["X"; "Y"]%string "genes" sampleWorld
              = (Ok (combined ["X"; "Y"]%string [0; 1]%nat),
                 snd (loadMultipleFeatures sampleEnv ["X"; "Y"]%string "genes" sampleWorld)))
    by (vm_compute; reflexivity).
  split.
  - exact (loadMultipleFeatures_keys sampleEnv ["X"; "Y"]%string "genes" sampleWorld
             _ _ (bool_decide_unpack ("__proto__"%string ∉ ["X"; "Y"]%string) I)
             H "Y"%string).
  - exact (loadMultipleFeatures_keys sampleEnv ["X"; "Y"]%string "genes" sampleWorld
             _ _ (bool_decide_unpack ("__proto__"%string ∉ ["X"; "Y"]%string) I)
             H "Z"%string).
Defined.












(** ** The module of [realDataConstants.js] *)

Lemma init_requests_descriptor env w :
  exists rest,
    requests (snd (init env w))
    = requests w ++ (basePath (this w) +:+ "/metadata.json") :: rest.
Proof.
  rewrite init_eq. cbn zeta.
  destruct (jsonFiles env _); [|now exists []].
  destruct (baseDataOf env _); eexists; reflexivity.
Qed.

(** X18: a failed [initializeData()] leaves the module uninitialised and
    [BASE_DATA] as it was, so that the next call tries again from the
    start: it requests the descriptor again. *)
Theorem initializeData_failure_retries env s e s1 :
  initializeData env s = (Throw e, s1) ->
  isInitialized s1 = false /\
  BASE_DATA s1 = BASE_DATA s /\
  exists rest,
    requests (binaryDataLoader (snd (initializeData env s1)))
    = requests (binaryDataLoader s1)
      ++ (basePath (this (binaryDataLoader s1)) +:+ "/metadata.json") :: rest.
Proof.
  intros H.
  assert (Hs1 : isInitialized s1 = false /\ BASE_DATA s1 = BASE_DATA s).
  { revert H. unfold initializeData.
    destruct (isInitialized s); [discriminate|].
    destruct (init env (binaryDataLoader s)) as [[b|e0] w'].
    - destruct (getBaseData (this w')), (getAllFeatures (this w'));
        intros [= _ <-] || discriminate; now split.
    - intros [= _ <-]. now split. }
  destruct Hs1 as [Hflag Hbase]. repeat split; [exact Hflag | exact Hbase |].
  destruct (init_requests_descriptor env (binaryDataLoader s1)) as [rest Hrest].
  exists rest. rewrite <- Hrest.
  unfold initializeData. rewrite Hflag.
  destruct (init env (binaryDataLoader s1)) as [[b|e0] w']; [|reflexivity].
  destruct (getBaseData (this w')), (getAllFeatures (this w')); reflexivity.
Qed.

Lemma initializeData_failure_retries_witness :
  let s1 := snd (initializeData partialEnv newConstants) in
  isInitialized s1 = false /\
  BASE_DATA s1 = BASE_DATA newConstants /\
  exists rest,
    requests (binaryDataLoader (snd (initializeData partialEnv s1)))
    = requests (binaryDataLoader s1)
      ++ (basePath (this (binaryDataLoader s1)) +:+ "/metadata.json") :: rest.
Proof.
  exact (initializeData_failure_retries partialEnv newConstants TypeError
           (snd (initializeData partialEnv newConstants)) eq_refl).
Defined.

(** The array a load returns has one entry per cell identifier. *)
Lemma loadFeature_vector_length env featureName category w r w' :
  cacheAligned env w ->
  loadFeature env featureName category w = (Ok r, w') ->
  exists bd vec,
    baseData (this w') = Some bd /\
    heap w' !! r = Some vec /\
    length vec = length (cellIds bd).
Proof.
  intros (_ & _ & Hcache) Hload.
  destruct (loadedFeatures (this w) !! featureName) as [cached|] eqn:Hc.
  - rewrite (loadFeature_cached _ _ _ _ _ Hc) in Hload. injection Hload as <- <-.
    destruct (Hcache _ _ Hc) as (bd & vec & Hb & Hh & _ & _ & _ & _ & _ & Hl & _).
    now exists bd, vec.
  - rewrite (loadFeature_miss env _ _ _ Hc) in Hload.
    set (url := featurePath (this w) featureName category) in *.
    destruct (baseData (this w)) as [bd|] eqn:Hbd.
    + rewrite (loadFeature_resume_loaded _ _ _ bd) in Hload by exact Hbd.
      injection Hload as <- <-. cbn [this heap logged].
      destruct (afterLoad_frame (this w) bd featureName (length (heap w))
                  (binaryFiles env url)) as (_ & Hbd1 & _).
      exists bd. eexists. split; [now rewrite Hbd1|]. split.
      * now rewrite lookup_app_r, Nat.sub_diag.
      * unfold afterLoad. destruct (binaryFiles env url) as [buffer|]; simpl;
          [|apply length_replicate].
        destruct (_parseFeatureBinary (this w) buffer) as [contents|e] eqn:Hp; simpl;
          [|apply length_replicate].
        rewrite (_parseFeatureBinary_pairs _ _ _ Hbd) in Hp.
        destruct (recordPairs buffer); simpl in Hp; [|discriminate].
        injection Hp as <-. now rewrite foldl_storePair_length, length_replicate.
    + assert (Hf : loadFails (this (logged url w)) (binaryFiles env url)).
      { destruct (binaryFiles env url) as [buffer|]; simpl; [|exact I].
        unfold _parseFeatureBinary, cellCount. rewrite Hbd.
        destruct (DataView.getUint32 buffer 0); simpl; eauto. }
      rewrite loadFeature_resume_fails in Hload by exact Hf.
      rewrite zeroFallback_unloaded in Hload by exact Hbd. discriminate.
Qed.

Lemma moduleAligned_new env : moduleAligned env newConstants.
Proof. split; [apply cacheAligned_new | discriminate]. Qed.

Lemma moduleAligned_initializeData env s :
  moduleAligned env s -> moduleAligned env (snd (initializeData env s)).
Proof.
  intros [Hinv Hbase]. unfold initializeData.
  destruct (isInitialized s) eqn:Hflag.
  { split; [exact Hinv|]. intros _. simpl. now apply Hbase. }
  pose proof (cacheAligned_init env _ Hinv) as Hinv'.
  destruct (init env (binaryDataLoader s)) as [[b|e] w']; simpl in Hinv'.
  - destruct (getBaseData (this w')) as [cells|e1] eqn:Hg;
      destruct (getAllFeatures (this w')); simpl; split;
      try exact Hinv'; try discriminate.
    intros _. exact Hg.
  - split; [exact Hinv' | discriminate].
Qed.

(** X19: on a module whose state is aligned (as it is from the start and
    after every operation), a [loadFeatureData] that returns gives exactly
    one row per cell of [BASE_DATA], in order; row [i] is cell [i] with
    entry [i] of the array that [loadFeature] returned for the feature
    stored under the feature's name: a number, never [undefined], and
    replacing the cell's own field when the feature is named like one of
    them.  The state stays aligned. *)
Theorem loadFeatureData_rows env featureName category s rows s' :
  moduleAligned env s ->
  loadFeatureData env featureName category s = (Ok rows, s') ->
  let s0 := snd (if isInitialized s then (Ok true, s) else initializeData env s) in
  exists featureArray,
    fst (loadFeature env featureName category (binaryDataLoader s0))
    = Ok featureArray /\
    isInitialized s' = true /\
    moduleAligned env s' /\
    length rows = length (BASE_DATA s') /\
    forall i cell, BASE_DATA s' !! i = Some cell ->
      exists v, arrayGet (binaryDataLoader s') featureArray i = Some v /\
                rows !! i = Some (<[featureName := VNumber v]> (cellObject cell)).
Proof.
  intros Hinv. unfold loadFeatureData.
  assert (H0 : exists r0 s0,
            (if isInitialized s then (Ok true, s) else initializeData env s) = (r0, s0) /\
            moduleAligned env s0 /\ (is_ok r0 = true -> isInitialized s0 = true)).
  { destruct (isInitialized s) eqn:Hflag.
    - exists (Ok true), s. auto.
    - destruct (initializeData env s) as [r0 s0] eqn:Hi.
      exists r0, s0. split; [reflexivity|]. split.
      + replace s0 with (snd (initializeData env s)) by now rewrite Hi.
        now apply moduleAligned_initializeData.
      + destruct r0 as [b|e]; [|discriminate]. intros _.
        eapply initializeData_sets_flag, Hi. }
  destruct H0 as (r0 & s0 & -> & [Hinv0 Hbase0] & Hflag0).
  destruct r0 as [b|e]; [|discriminate]. specialize (Hflag0 eq_refl).
  cbn [snd].
  destruct (loadFeature env featureName category (binaryDataLoader s0))
    as [[r|e] w'] eqn:Hload; [|discriminate].
  intros [= <- <-]. exists r. split; [reflexivity|].
  cbn [isInitialized BASE_DATA binaryDataLoader].
  pose proof (cacheAligned_loadFeature env featureName category _ Hinv0) as Hinv'.
  rewrite Hload in Hinv'. cbn [snd] in Hinv'.
  destruct (loadFeature_vector_length env _ _ _ _ _ Hinv0 Hload)
    as (bd & vec & Hbd & Hh & Hlen).
  assert (Hsame : getBaseData (this w') = Ok (BASE_DATA s0)).
  { specialize (Hbase0 Hflag0). revert Hbase0. unfold getBaseData.
    assert (Hthis : baseData (this w') = baseData (this (binaryDataLoader s0))).
    { destruct (loadedFeatures (this (binaryDataLoader s0)) !! featureName) eqn:Hc.
      - rewrite (loadFeature_cached _ _ _ _ _ Hc) in Hload. now injection Hload as _ <-.
      - rewrite (loadFeature_miss env _ _ _ Hc) in Hload.
        destruct (baseData (this (binaryDataLoader s0))) as [bd0|] eqn:Hb0.
        + rewrite (loadFeature_resume_loaded _ _ _ bd0) in Hload by exact Hb0.
          injection Hload as _ <-. cbn [this logged].
          now destruct (afterLoad_frame (this (binaryDataLoader s0)) bd0 featureName
                          (length (heap (binaryDataLoader s0)))
                          (binaryFiles env (featurePath (this (binaryDataLoader s0))
                                                        featureName category)))
            as (_ & -> & _).
        + exfalso.
          destruct (binaryFiles env _) as [buffer|] eqn:Hf.
          * rewrite loadFeature_resume_fails in Hload.
            -- rewrite zeroFallback_unloaded in Hload by exact Hb0. discriminate.
            -- simpl. unfold _parseFeatureBinary, cellCount. rewrite Hb0.
               destruct (DataView.getUint32 buffer 0); simpl; eauto.
          * rewrite loadFeature_resume_fails in Hload by exact I.
            rewrite zeroFallback_unloaded in Hload by exact Hb0. discriminate. }
    now rewrite Hthis. }
  split; [exact Hflag0|].
  split; [split; [exact Hinv' | intros _; exact Hsame]|].
  split; [apply length_imap|].
  intros i cell Hi.
  assert (Hcells : length (BASE_DATA s0) = length (cellIds bd)).
  { destruct Hinv' as (_ & Hof & _). specialize (Hof _ Hbd).
    apply baseDataOf_cells in Hof as [Hl _].
    unfold getBaseData in Hsame. rewrite Hbd in Hsame. injection Hsame as <-.
    exact Hl. }
  destruct (lookup_lt_is_Some_2 vec i) as [v Hv].
  { apply lookup_lt_Some in Hi. lia. }
  exists v.
  assert (Hget : arrayGet w' r i = Some v).
  { unfold arrayGet. rewrite Hh. exact Hv. }
  split; [exact Hget|].
  rewrite list_lookup_imap, Hi. simpl. unfold elementOf. now rewrite Hget.
Qed.

Lemma loadFeatureData_rows_witness :
  let s' := snd (loadFeatureData sampleEnv "X" "genes" newConstants) in
  let rows :=
    [<["X" := VNumber 0]>
       (cellObject (mkCell "c0" 0x3f800000 0x40000000 (Some "s1"%string) (Some "a"%string)));
     <["X" := VNumber 0x3f800000]>
       (cellObject (mkCell "c1" 0x40400000 0x40800000 (Some "s2"%string) (Some "b"%string)))] in
  let s0 := snd (if isInitialized newConstants then (Ok true, newConstants)
                 else initializeData sampleEnv newConstants) in
  exists featureArray,
    fst (loadFeature sampleEnv "X" "genes" (binaryDataLoader s0)) = Ok featureArray /\
    isInitialized s' = true /\
    moduleAligned sampleEnv s' /\
    length rows = length (BASE_DATA s') /\
    forall i cell, BASE_DATA s' !! i = Some cell ->
      exists v, arrayGet (binaryDataLoader s') featureArray i = Some v /\
                rows !! i = Some (<["X" := VNumber v]> (cellObject cell)).
Proof.
  intros s' rows.
  refine (loadFeatureData_rows sampleEnv "X" "genes" newConstants rows s'
            (moduleAligned_new sampleEnv) _).
  vm_compute. reflexivity.
Defined.

(** ** The gene loader of [dataManager.js] *)

Lemma gene_key_injective (g1 g2 : string) :
  "gene_" +:+ g1 = "gene_" +:+ g2 -> g1 = g2.
Proof. intros H. now injection H. Qed.

(** X20: the first load of a gene on a manager whose matrix is not loaded
    calls [loadSparseMatrix] once; when that answers with a matrix, the
    matrix is kept, the gene's row (the empty row when the matrix has no
    such gene) is returned and stored, and the entry of [loadingPromises]
    is removed.  A later call for the gene returns the stored row without
    any load, whatever [loadSparseMatrix] would answer.  The gene's name
    is not one a plain object inherits from [Object.prototype]. *)
Theorem loadGeneExpression_first_load matrix answer' geneName s :
  geneName ∉ objectPrototypeKeys ->
  DataManager.geneData (DataManager.manager s) !! geneName = None ->
  DataManager.loadingPromises (DataManager.manager s) !! ("gene_" +:+ geneName) = None ->
  DataManager.isGeneMatrixLoaded (DataManager.manager s) = false ->
  let row := default ∅ (matrix !! geneName) in
  let '(out, s1) := DataManager.loadGeneExpression (Ok matrix) geneName s in
  out = DataManager.Returned (Ok row) /\
  DataManager.geneData (DataManager.manager s1)
  = <[geneName := row]> (DataManager.geneData (DataManager.manager s)) /\
  DataManager.geneSparseMatrix (DataManager.manager s1) = Some matrix /\
  DataManager.isGeneMatrixLoaded (DataManager.manager s1) = true /\
  DataManager.loadingPromises (DataManager.manager s1)
  = DataManager.loadingPromises (DataManager.manager s) /\
  DataManager.matrixLoads s1
  = DataManager.matrixLoads s ++ [DataManager.GENE_EXPRESSION_SPARSE_FILE] /\
  DataManager.loadGeneExpression answer' geneName s1
  = (DataManager.Returned (Ok row), s1).
Proof.
  intros _ Hdata Hprom Hloaded row.
  unfold DataManager.loadGeneExpression at 1.
  unfold DataManager.loadGeneExpression_call at 1.
  rewrite Hdata, Hprom.
  unfold DataManager._loadGeneExpressionImpl_call. rewrite Hloaded.
  cbn [DataManager._loadGeneExpressionImpl_resume DataManager.loadGeneExpression_settle
       DataManager.manager DataManager.promises DataManager.matrixLoads
       DataManager.geneData DataManager.geneSparseMatrix
       DataManager.isGeneMatrixLoaded DataManager.loadingPromises].
  fold row.
  repeat split.
  - rewrite delete_insert_eq. now apply delete_id.
  - unfold DataManager.loadGeneExpression, DataManager.loadGeneExpression_call.
    cbn [DataManager.manager DataManager.geneData].
    now rewrite lookup_insert_eq.
Qed.

Lemma loadGeneExpression_first_load_witness :
  let matrix : gmap string (gmap string Z) :=
    {[ "Sox9"%string := {[ "c1"%string := 7 ]} ]} in
  let '(out, s1) :=
    DataManager.loadGeneExpression (Ok matrix) "Msx1" DataManager.newState in
  out = DataManager.Returned (Ok ∅) /\
  DataManager.geneData (DataManager.manager s1)
  = <["Msx1"%string := ∅]> (DataManager.geneData (DataManager.manager DataManager.newState)) /\
  DataManager.geneSparseMatrix (DataManager.manager s1) = Some matrix /\
  DataManager.isGeneMatrixLoaded (DataManager.manager s1) = true /\
  DataManager.loadingPromises (DataManager.manager s1)
  = DataManager.loadingPromises (DataManager.manager DataManager.newState) /\
  DataManager.matrixLoads s1
  = DataManager.matrixLoads DataManager.newState
    ++ [DataManager.GENE_EXPRESSION_SPARSE_FILE] /\
  DataManager.loadGeneExpression (Throw FetchError) "Msx1" s1
  = (DataManager.Returned (Ok ∅), s1).
Proof.
  intros matrix.
  exact (loadGeneExpression_first_load matrix (Throw FetchError) "Msx1"
           DataManager.newState
           (bool_decide_unpack ("Msx1"%string ∉ objectPrototypeKeys) I)
           eq_refl eq_refl eq_refl).
Defined.

(** X21: when [loadSparseMatrix] rejects, the load throws the same error
    to its caller and leaves the manager exactly as it was before the call
    (nothing stored, the entry of [loadingPromises] removed, the matrix
    still not loaded), so that the next call for the gene calls
    [loadSparseMatrix] again.  The gene's name is not one a plain object
    inherits from [Object.prototype]. *)
Theorem loadGeneExpression_failure_retries e answer' geneName s :
  geneName ∉ objectPrototypeKeys ->
  DataManager.geneData (DataManager.manager s) !! geneName = None ->
  DataManager.loadingPromises (DataManager.manager s) !! ("gene_" +:+ geneName) = None ->
  DataManager.isGeneMatrixLoaded (DataManager.manager s) = false ->
  let '(out, s1) := DataManager.loadGeneExpression (Throw e) geneName s in
  out = DataManager.Returned (Throw e) /\
  DataManager.manager s1 = DataManager.manager s /\
  DataManager.matrixLoads s1
  = DataManager.matrixLoads s ++ [DataManager.GENE_EXPRESSION_SPARSE_FILE] /\
  DataManager.matrixLoads (snd (DataManager.loadGeneExpression answer' geneName s1))
  = DataManager.matrixLoads s
    ++ [DataManager.GENE_EXPRESSION_SPARSE_FILE; DataManager.GENE_EXPRESSION_SPARSE_FILE].
Proof.
  intros _ Hdata Hprom Hloaded.
  assert (Hrun : forall answer v,
            DataManager.manager v = DataManager.manager s ->
            DataManager.matrixLoads
              (snd (DataManager.loadGeneExpression answer geneName v))
            = DataManager.matrixLoads v ++ [DataManager.GENE_EXPRESSION_SPARSE_FILE] /\
            (answer = Throw e ->
             fst (DataManager.loadGeneExpression answer geneName v)
             = DataManager.Returned (Throw e) /\
             DataManager.manager (snd (DataManager.loadGeneExpression answer geneName v))
             = DataManager.manager s)).
  { intros answer v Hv.
    unfold DataManager.loadGeneExpression, DataManager.loadGeneExpression_call.
    rewrite Hv, Hdata, Hprom.
    unfold DataManager._loadGeneExpressionImpl_call. rewrite Hv, Hloaded.
    cbn [DataManager.manager DataManager.promises DataManager.matrixLoads
         DataManager.geneData DataManager.geneSparseMatrix
         DataManager.isGeneMatrixLoaded DataManager.loadingPromises].
    split.
    - destruct answer; reflexivity.
    - intros ->. cbn. split; [reflexivity|].
      rewrite delete_insert_eq, delete_id by exact Hprom.
      now destruct (DataManager.manager s). }
  destruct (Hrun (Throw e) s eq_refl) as [Hl [Hout Hm]]; [reflexivity|].
  destruct (DataManager.loadGeneExpression (Throw e) geneName s) as [out s1].
  cbn [fst snd] in *. repeat split; [exact Hout | exact Hm | exact Hl |].
  destruct (Hrun answer' s1 Hm) as [Hl' _]. rewrite Hl', Hl, <- app_assoc.
  reflexivity.
Qed.

Lemma loadGeneExpression_failure_retries_witness :
  let '(out, s1) :=
    DataManager.loadGeneExpression (Throw FetchError) "Sox9" DataManager.newState in
  out = DataManager.Returned (Throw FetchError) /\
  DataManager.manager s1 = DataManager.manager DataManager.newState /\
  DataManager.matrixLoads s1
  = DataManager.matrixLoads DataManager.newState
    ++ [DataManager.GENE_EXPRESSION_SPARSE_FILE] /\
  DataManager.matrixLoads
    (snd (DataManager.loadGeneExpression (Throw FetchError) "Sox9" s1))
  = DataManager.matrixLoads DataManager.newState
    ++ [DataManager.GENE_EXPRESSION_SPARSE_FILE; DataManager.GENE_EXPRESSION_SPARSE_FILE].
Proof.
  exact (loadGeneExpression_failure_retries FetchError (Throw FetchError) "Sox9"
           DataManager.newState
           (bool_decide_unpack ("Sox9"%string ∉ objectPrototypeKeys) I)
           eq_refl eq_refl eq_refl).
Defined.

(** X22: the coalescing is per gene: calls for distinct genes made before
    the matrix has answered each call [loadSparseMatrix] on the same file,
    once per gene, each with a promise of its own.  The genes' names are
    not among those a plain object inherits from [Object.prototype]. *)
Theorem distinct_genes_each_load_matrix geneNames : forall s,
  NoDup geneNames ->
  Forall (fun g =>
            (g ∉ objectPrototypeKeys) /\
            DataManager.geneData (DataManager.manager s) !! g = None /\
            DataManager.loadingPromises (DataManager.manager s) !! ("gene_" +:+ g) = None)
         geneNames ->
  DataManager.isGeneMatrixLoaded (DataManager.manager s) = false ->
  fst (DataManager.callEach geneNames s)
  = map DataManager.Starts (seq (DataManager.promises s) (length geneNames)) /\
  DataManager.matrixLoads (snd (DataManager.callEach geneNames s))
  = DataManager.matrixLoads s
    ++ replicate (length geneNames) DataManager.GENE_EXPRESSION_SPARSE_FILE.
Proof.
  induction geneNames as [|g gs IH]; intros s Hnd Hall Hloaded.
  - simpl. now rewrite app_nil_r.
  - apply NoDup_cons in Hnd as [Hg Hnd].
    inversion Hall as [|? ? (_ & Hdata & Hprom) Hall']; subst.
    cbn [DataManager.callEach].
    unfold DataManager.loadGeneExpression_call at 1 2.
    rewrite Hdata, Hprom.
    unfold DataManager._loadGeneExpressionImpl_call. rewrite Hloaded.
    cbn [DataManager.manager DataManager.promises DataManager.matrixLoads
         DataManager.geneData DataManager.geneSparseMatrix
         DataManager.isGeneMatrixLoaded DataManager.loadingPromises].
    set (s1 := DataManager.mkState _ _ _).
    destruct (IH s1 Hnd) as [Hj Hl].
    + apply Forall_forall. intros a Ha.
      rewrite Forall_forall in Hall'. destruct (Hall' a Ha) as (Hk & Hd & Hp).
      split; [exact Hk|]. split; [exact Hd|].
      unfold s1. cbn [DataManager.manager DataManager.loadingPromises].
      rewrite lookup_insert_ne; [exact Hp|].
      intros Heq. apply gene_key_injective in Heq. subst a. contradiction.
    + exact Hloaded.
    + destruct (DataManager.callEach gs s1) as [js s2]. cbn [fst snd] in *.
      split.
      * rewrite Hj. reflexivity.
      * rewrite Hl. unfold s1. cbn [DataManager.matrixLoads replicate].
        now rewrite <- app_assoc.
Qed.

Lemma distinct_genes_each_load_matrix_witness :
  fst (DataManager.callEach ["Sox9"; "Msx1"]%string DataManager.newState)
  = [DataManager.Starts 0; DataManager.Starts 1] /\
  DataManager.matrixLoads
    (snd (DataManager.callEach ["Sox9"; "Msx1"]%string DataManager.newState))
  = ["./data/gene_expression_sparse.json"; "./data/gene_expression_sparse.json"]%string.
Proof.
  refine (distinct_genes_each_load_matrix ["Sox9"; "Msx1"]%string
            DataManager.newState _ _ eq_refl).
  - exact (bool_decide_unpack (NoDup ["Sox9"; "Msx1"]%string) I).
  - repeat constructor;
      first [exact (bool_decide_unpack ("Sox9"%string ∉ objectPrototypeKeys) I)
            |exact (bool_decide_unpack ("Msx1"%string ∉ objectPrototypeKeys) I)].
Defined.

(** X23: [clearCache()] of the manager drops the loaded genes and the
    entries of [loadingPromises] but keeps the matrix: with the matrix
    loaded, a gene asked for after a clear is served from the matrix,
    without any call of [loadSparseMatrix], and is stored again.  The
    gene's name is not one a plain object inherits from
    [Object.prototype]. *)
Theorem clearCache_keeps_matrix matrix answer geneName s :
  geneName ∉ objectPrototypeKeys ->
  DataManager.isGeneMatrixLoaded (DataManager.manager s) = true ->
  DataManager.geneSparseMatrix (DataManager.manager s) = Some matrix ->
  let row := default ∅ (matrix !! geneName) in
  let '(out, s1) :=
    DataManager.loadGeneExpression answer geneName (DataManager.clearCache s) in
  out = DataManager.Returned (Ok row) /\
  DataManager.geneData (DataManager.manager s1) = {[ geneName := row ]} /\
  DataManager.loadingPromises (DataManager.manager s1) = ∅ /\
  DataManager.matrixLoads s1 = DataManager.matrixLoads s.
Proof.
  intros _ Hloaded Hmatrix row.
  unfold DataManager.loadGeneExpression, DataManager.loadGeneExpression_call,
    DataManager.clearCache.
  cbn [DataManager.manager DataManager.geneData DataManager.loadingPromises].
  rewrite !lookup_empty.
  unfold DataManager._loadGeneExpressionImpl_call.
  cbn [DataManager.manager DataManager.promises DataManager.matrixLoads
       DataManager.geneData DataManager.geneSparseMatrix
       DataManager.isGeneMatrixLoaded DataManager.loadingPromises].
  rewrite Hloaded, Hmatrix.
  cbn [DataManager.loadGeneExpression_settle
       DataManager.manager DataManager.promises DataManager.matrixLoads
       DataManager.geneData DataManager.geneSparseMatrix
       DataManager.isGeneMatrixLoaded DataManager.loadingPromises mbind option_bind].
  fold row. rewrite lookup_insert_eq. cbn [default].
  repeat split.
  rewrite delete_insert_eq. apply delete_empty.
Qed.

Lemma clearCache_keeps_matrix_witness :
  let matrix : gmap string (gmap string Z) :=
    {[ "Sox9"%string := {[ "c1"%string := 7 ]} ]} in
  let s := snd (DataManager.loadGeneExpression (Ok matrix) "Sox9" DataManager.newState) in
  let row := default ∅ (matrix !! "Sox9"%string) in
  let '(out, s1) :=
    DataManager.loadGeneExpression (Throw FetchError) "Sox9" (DataManager.clearCache s) in
  out = DataManager.Returned (Ok row) /\
  DataManager.geneData (DataManager.manager s1) = {[ "Sox9"%string := row ]} /\
  DataManager.loadingPromises (DataManager.manager s1) = ∅ /\
  DataManager.matrixLoads s1 = DataManager.matrixLoads s.
Proof.
  intros matrix s.
  exact (clearCache_keeps_matrix matrix (Throw FetchError) "Sox9" s
           (bool_decide_unpack ("Sox9"%string ∉ objectPrototypeKeys) I)
           eq_refl eq_refl).
Defined.

(** ** Labels of the trait list *)

Lemma append_empty_r (s : string) : s +:+ "" = s.
Proof.
  induction s as [|c s IH]; [reflexivity|].
  change (String c s +:+ "") with (String c (s +:+ "")). now rewrite IH.
Qed.

Lemma prefix_other_head a p c s :
  c <> a -> String.prefix (String a p) (String c s) = false.
Proof. intros Hne. simpl. destruct (Ascii.ascii_dec a c); congruence. Qed.

(** A pattern cannot start inside a stretch that lacks its first
    character. *)
Lemma includes_skip a p name : forall suffix,
  Forall (fun c => c <> a) (list_ascii_of_string name) ->
  Traits.includes (String a p) (name +:+ suffix) = Traits.includes (String a p) suffix.
Proof.
  induction name as [|c name IH]; intros suffix Hno; [reflexivity|].
  simpl in Hno. inversion Hno as [|? ? Hc Hno']; subst.
  change (String c name +:+ suffix) with (String c (name +:+ suffix)).
  cbn [Traits.includes]. rewrite prefix_other_head by exact Hc.
  now apply IH.
Qed.

Lemma replaceFirst_skip a p replacement name : forall suffix,
  Forall (fun c => c <> a) (list_ascii_of_string name) ->
  Traits.replaceFirst (String a p) replacement (name +:+ suffix)
  = name +:+ Traits.replaceFirst (String a p) replacement suffix.
Proof.
  induction name as [|c name IH]; intros suffix Hno; [reflexivity|].
  simpl in Hno. inversion Hno as [|? ? Hc Hno']; subst.
  change (String c name +:+ suffix) with (String c (name +:+ suffix)).
  cbn [Traits.replaceFirst]. rewrite prefix_other_head by exact Hc.
  rewrite IH by exact Hno'. reflexivity.
Qed.

(** X24: for a transcription-factor name free of spaces and of opening
    parentheses, the trait list labels [name activity(direct)] as
    [name Activity (Direct)] and [name activity(extended)] as
    [name Activity (Extended)], and labels the bare [name] with itself;
    the key is always the feature name as listed. *)
Theorem tf_labels name :
  Forall (fun c => c <> " "%char /\ c <> "("%char) (list_ascii_of_string name) ->
  Traits.tfLabel (name +:+ " activity(direct)") = name +:+ " Activity (Direct)" /\
  Traits.tfLabel (name +:+ " activity(extended)") = name +:+ " Activity (Extended)" /\
  Traits.tfLabel name = name /\
  forall genes tfs,
    map Traits.key (Traits.buildTraits (genes, tfs)) = genes ++ tfs.
Proof.
  intros Hno.
  assert (Hsp : Forall (fun c => c <> " "%char) (list_ascii_of_string name))
    by (eapply Forall_impl; [exact Hno | now intros c [? _]]).
  assert (Hpar : Forall (fun c => c <> "("%char) (list_ascii_of_string name))
    by (eapply Forall_impl; [exact Hno | now intros c [_ ?]]).
  unfold Traits.tfLabel. repeat split.
  - rewrite (includes_skip "(" "direct)" name) by exact Hpar.
    change (Traits.includes "(direct)" " activity(direct)") with true. cbv iota.
    rewrite (replaceFirst_skip " " "activity(direct)") by exact Hsp. reflexivity.
  - rewrite (includes_skip "(" "direct)" name) by exact Hpar.
    change (Traits.includes "(direct)" " activity(extended)") with false. cbv iota.
    rewrite (includes_skip "(" "extended)" name) by exact Hpar.
    change (Traits.includes "(extended)" " activity(extended)") with true. cbv iota.
    rewrite (replaceFirst_skip " " "activity(extended)") by exact Hsp. reflexivity.
  - assert (Hd : Traits.includes "(direct)" name = false).
    { rewrite <- (append_empty_r name).
      now rewrite (includes_skip "(" "direct)" name) by exact Hpar. }
    assert (He : Traits.includes "(extended)" name = false).
    { rewrite <- (append_empty_r name).
      now rewrite (includes_skip "(" "extended)" name) by exact Hpar. }
    rewrite Hd, He. apply append_empty_r.
  - intros genes tfs. unfold Traits.buildTraits. cbn [fst snd].
    rewrite map_app, !map_map. cbn [Traits.key]. now rewrite !map_id.
Qed.

Lemma tf_labels_witness :
  Traits.tfLabel ("Sox9" +:+ " activity(direct)") = "Sox9" +:+ " Activity (Direct)" /\
  Traits.tfLabel ("Sox9" +:+ " activity(extended)") = "Sox9" +:+ " Activity (Extended)" /\
  Traits.tfLabel "Sox9" = "Sox9"%string /\
  forall genes tfs,
    map Traits.key (Traits.buildTraits (genes, tfs)) = genes ++ tfs.
Proof.
  apply (tf_labels "Sox9").
  repeat constructor; discriminate.
Defined.

(** X25: a first [initializeData()] that succeeds issues exactly five
    requests (the descriptor, then the four base files) and leaves in
    [BASE_DATA] the cell sequence of the loader. *)
Theorem initializeData_first_success env s b s1 :
  isInitialized s = false ->
  initializeData env s = (Ok b, s1) ->
  getBaseData (this (binaryDataLoader s1)) = Ok (BASE_DATA s1) /\
  requests (binaryDataLoader s1)
  = requests (binaryDataLoader s)
    ++ (basePath (this (binaryDataLoader s)) +:+ "/metadata.json")
       :: baseDataRequests (basePath (this (binaryDataLoader s))).
Proof.
  intros Hflag. unfold initializeData. rewrite Hflag.
  destruct (init env (binaryDataLoader s)) as [[b0|e] w'] eqn:Hinit; [|discriminate].
  assert (Hreq : requests w'
                 = requests (binaryDataLoader s)
                   ++ (basePath (this (binaryDataLoader s)) +:+ "/metadata.json")
                      :: baseDataRequests (basePath (this (binaryDataLoader s)))).
  { revert Hinit. rewrite init_eq. cbn zeta.
    destruct (jsonFiles env _); [|discriminate].
    destruct (baseDataOf env _); [|discriminate].
    now intros [= _ <-]. }
  destruct (getBaseData (this w')) as [cells|e1] eqn:Hg;
    destruct (getAllFeatures (this w')); try discriminate.
  intros [= _ <-]. cbn [binaryDataLoader BASE_DATA]. now split.
Qed.

Lemma initializeData_first_success_witness :
  let s1 := snd (initializeData sampleEnv newConstants) in
  getBaseData (this (binaryDataLoader s1)) = Ok (BASE_DATA s1) /\
  requests (binaryDataLoader s1)
  = requests (binaryDataLoader newConstants)
    ++ (basePath (this (binaryDataLoader newConstants)) +:+ "/metadata.json")
       :: baseDataRequests (basePath (this (binaryDataLoader newConstants))).
Proof.
  exact (initializeData_first_success sampleEnv newConstants true
           (snd (initializeData sampleEnv newConstants)) eq_refl eq_refl).
Defined.
